(** * MyApp-CLI: the scaffolding workflow, embedded and verified

    The repository holds two revisions of one command-line tool written in
    Go: [main.go] (the current revision, with the validating name prompt and
    the eleven-step materializer) and an earlier, simpler revision that takes
    the [--skip-setup] flag.  Both are embedded below as state-passing
    programs over a [World] (operating system state, unread standard input
    and the trace of everything the process did).  The Go library functions
    the program calls ([strings.TrimSpace], [strings.Replace],
    [strings.ContainsAny], [utf8.DecodeRuneInString], [unicode.IsSpace]) are
    embedded from their Go sources. *)

From Stdlib Require Import ZArith Lia List Ascii String Bool.
From stdpp Require Import base gmap strings list.
From Equations Require Import Equations.

Local Open Scope Z_scope.

(** ** Bytes

    A Go string is a sequence of bytes; [string] holds one byte per
    character.  The library functions below work on the byte list. *)

Abbreviation bytes := (list ascii).

Definition b2z (c : ascii) : Z := Z.of_N (N_of_ascii c).

(** [s[i]] for an index known to be in range (Go panics otherwise). *)
Definition at_ (s : bytes) (i : Z) : Z := b2z (nth (Z.to_nat i) s zero).

(** [s[i:]] and [s[:j]]. *)
Definition from (i : Z) (s : bytes) : bytes := drop (Z.to_nat i) s.
Definition upto (j : Z) (s : bytes) : bytes := take (Z.to_nat j) s.

Definition len (s : bytes) : Z := Z.of_nat (length s).

(** The double quote character, and a text between double quotes. *)
Definition dquote : ascii := "034"%char.
Definition newline : ascii := "010"%char.
Definition quoted (s : string) : string :=
  String dquote (s +:+ String dquote EmptyString).

(** Wrap-around of the fixed-width integers (Go's [rune] is [int32]). *)
Definition int32 (z : Z) : Z := (z + 2 ^ 31) mod 2 ^ 32 - 2 ^ 31.
Definition uint32 (z : Z) : Z := z mod 2 ^ 32.
Definition uint16 (z : Z) : Z := z mod 2 ^ 16.
Definition uint8 (z : Z) : Z := z mod 2 ^ 8.

(** The byte of a value below 256. *)
Definition z2b (z : Z) : ascii := ascii_of_N (Z.to_N (uint8 z)).

(** ** Package unicode/utf8 *)
Module utf8.

Definition RuneError : Z := 0xFFFD.
Definition RuneSelf : Z := 0x80.
Definition UTFMax : Z := 4.
Definition MaxRune : Z := 0x10FFFF.
Definition surrogateMin : Z := 0xD800.
Definition surrogateMax : Z := 0xDFFF.
Definition rune1Max : Z := 2 ^ 7 - 1.
Definition rune2Max : Z := 2 ^ 11 - 1.
Definition rune3Max : Z := 2 ^ 16 - 1.
Definition tx : Z := 0x80.
Definition t2 : Z := 0xC0.
Definition t3 : Z := 0xE0.
Definition t4 : Z := 0xF0.

Definition maskx : Z := 0x3F.
Definition mask2 : Z := 0x1F.
Definition mask3 : Z := 0x0F.
Definition mask4 : Z := 0x07.
Definition locb : Z := 0x80.
Definition hicb : Z := 0xBF.

(** Entries of the table [first]: the high nibble indexes [acceptRanges]
    (or is F for the one-byte cases), the low nibble is the size. *)
Definition xx : Z := 0xF1.
Definition as_ : Z := 0xF0.
Definition s1 : Z := 0x02.
Definition s2 : Z := 0x13.
Definition s3 : Z := 0x03.
Definition s4 : Z := 0x23.
Definition s5 : Z := 0x34.
Definition s6 : Z := 0x04.
Definition s7 : Z := 0x44.

(** [first[b]], the 256-entry table written by its rows. *)
Definition first (b : Z) : Z :=
  if b <? 0x80 then as_            (* 0x00-0x7F *)
  else if b <? 0xC2 then xx        (* 0x80-0xC1 *)
  else if b <? 0xE0 then s1        (* 0xC2-0xDF *)
  else if b =? 0xE0 then s2
  else if b <? 0xED then s3        (* 0xE1-0xEC *)
  else if b =? 0xED then s4
  else if b <? 0xF0 then s3        (* 0xEE-0xEF *)
  else if b =? 0xF0 then s5
  else if b <? 0xF4 then s6        (* 0xF1-0xF3 *)
  else if b =? 0xF4 then s7
  else xx.                         (* 0xF5-0xFF *)

(** [acceptRanges[i]] as the pair (lo, hi); unused entries are zero. *)
Definition acceptRanges (i : Z) : Z * Z :=
  if i =? 0 then (locb, hicb)
  else if i =? 1 then (0xA0, hicb)
  else if i =? 2 then (locb, 0x9F)
  else if i =? 3 then (0x90, hicb)
  else if i =? 4 then (locb, 0x8F)
  else (0, 0).

(** [DecodeRuneInString(s)]: the first rune of [s] and its width in bytes. *)
Definition DecodeRuneInString (s : bytes) : Z * Z :=
  let n := len s in
  if n <? 1 then (RuneError, 0)
  else
    let s0 := at_ s 0 in
    let x := first s0 in
    if as_ <=? x then
      let mask := Z.shiftr (int32 (Z.shiftl x 31)) 31 in
      (Z.lor (Z.land s0 (Z.lnot mask)) (Z.land RuneError mask), 1)
    else
      let sz := Z.land x 7 in
      let accept := acceptRanges (Z.shiftr x 4) in
      if n <? sz then (RuneError, 1)
      else
        let b1 := at_ s 1 in
        if (b1 <? fst accept) || (snd accept <? b1) then (RuneError, 1)
        else if sz <=? 2 then
          (Z.lor (Z.shiftl (Z.land s0 mask2) 6) (Z.land b1 maskx), 2)
        else
          let b2 := at_ s 2 in
          if (b2 <? locb) || (hicb <? b2) then (RuneError, 1)
          else if sz <=? 3 then
            (Z.lor (Z.lor (Z.shiftl (Z.land s0 mask3) 12)
                          (Z.shiftl (Z.land b1 maskx) 6))
                   (Z.land b2 maskx), 3)
          else
            let b3 := at_ s 3 in
            if (b3 <? locb) || (hicb <? b3) then (RuneError, 1)
            else
              (Z.lor (Z.lor (Z.lor (Z.shiftl (Z.land s0 mask4) 18)
                                   (Z.shiftl (Z.land b1 maskx) 12))
                            (Z.shiftl (Z.land b2 maskx) 6))
                     (Z.land b3 maskx), 4).

(** [RuneStart(b)]: [b] is not a continuation byte. *)
Definition RuneStart (b : Z) : bool := negb (Z.land b 0xC0 =? 0x80).

(** The loop [for start--; start >= lim; start-- { if RuneStart(s[start]) { break } }]
    of [DecodeLastRuneInString]; it runs at most [UTFMax - 1] times. *)
Fixpoint scanBack (fuel : nat) (s : bytes) (start lim : Z) : Z :=
  match fuel with
  | O => start
  | S fuel' =>
      if start >=? lim then
        if RuneStart (at_ s start) then start
        else scanBack fuel' s (start - 1) lim
      else start
  end.

(** [DecodeLastRuneInString(s)]: the last rune of [s] and its width. *)
Definition DecodeLastRuneInString (s : bytes) : Z * Z :=
  let end_ := len s in
  if end_ =? 0 then (RuneError, 0)
  else
    let start := end_ - 1 in
    let r := at_ s start in
    if r <? RuneSelf then (r, 1)
    else
      let lim := end_ - UTFMax in
      let lim := if lim <? 0 then 0 else lim in
      let start := scanBack 4 s (start - 1) lim in
      let start := if start <? 0 then 0 else start in
      let '(r, size) := DecodeRuneInString (upto end_ (from start s)) in
      if negb (start + size =? end_) then (RuneError, 1)
      else (r, size).

(** [ValidRune(r)]. *)
Definition ValidRune (r : Z) : bool :=
  if (0 <=? r) && (r <? surrogateMin) then true
  else if (surrogateMax <? r) && (r <=? MaxRune) then true
  else false.

(** [AppendRune(nil, r)], which is also the conversion [string(r)]. *)
Definition appendRuneNonASCII (r : Z) : bytes :=
  let i := uint32 r in
  let three (r : Z) :=
    [ z2b (Z.lor t3 (uint8 (Z.shiftr r 12)));
      z2b (Z.lor tx (Z.land (uint8 (Z.shiftr r 6)) maskx));
      z2b (Z.lor tx (Z.land (uint8 r) maskx)) ] in
  if i <=? rune2Max then
    [ z2b (Z.lor t2 (uint8 (Z.shiftr r 6)));
      z2b (Z.lor tx (Z.land (uint8 r) maskx)) ]
  else if (MaxRune <? i) || ((surrogateMin <=? i) && (i <=? surrogateMax)) then
    three RuneError
  else if i <=? rune3Max then three r
  else
    [ z2b (Z.lor t4 (uint8 (Z.shiftr r 18)));
      z2b (Z.lor tx (Z.land (uint8 (Z.shiftr r 12)) maskx));
      z2b (Z.lor tx (Z.land (uint8 (Z.shiftr r 6)) maskx));
      z2b (Z.lor tx (Z.land (uint8 r) maskx)) ].

Definition AppendRune (r : Z) : bytes :=
  if uint32 r <=? rune1Max then [z2b r] else appendRuneNonASCII r.

(** The runes a [for i, r := range s] loop visits, with their indices:
    [RuneError] of width 1 stands for each invalid byte. *)
Fixpoint range_loop (fuel : nat) (s : bytes) (i : Z) : list (Z * Z) :=
  match fuel with
  | O => []
  | S fuel' =>
      match s with
      | [] => []
      | _ :: _ =>
          let '(r, size) := DecodeRuneInString s in
          (i, r) :: range_loop fuel' (from size s) (i + size)
      end
  end.

Definition range (s : bytes) : list (Z * Z) := range_loop (length s) s 0.

(** [RuneCountInString(s)]. *)
Definition RuneCountInString (s : bytes) : Z :=
  Z.of_nat (length (range s)).

End utf8.

(** ** Package unicode *)
Module unicode.

Definition MaxLatin1 : Z := 0xFF.

(** The 16-bit ranges (Lo, Hi, Stride) of the table [White_Space]; its
    32-bit part is empty and its [LatinOffset] is 4. *)
Definition White_Space_R16 : list (Z * Z * Z) :=
  [ (0x0009, 0x000d, 1); (0x0020, 0x0020, 1); (0x0085, 0x0085, 1);
    (0x00a0, 0x00a0, 1); (0x1680, 0x1680, 1); (0x2000, 0x200a, 1);
    (0x2028, 0x2029, 1); (0x202f, 0x202f, 1); (0x205f, 0x205f, 1);
    (0x3000, 0x3000, 1) ].
Definition White_Space_LatinOffset : nat := 4.

(** [is16], the linear search used for tables of at most 18 ranges. *)
Fixpoint is16 (ranges : list (Z * Z * Z)) (r : Z) : bool :=
  match ranges with
  | [] => false
  | (lo, hi, stride) :: rest =>
      if r <? lo then false
      else if r <=? hi then (stride =? 1) || ((r - lo) mod stride =? 0)
      else is16 rest r
  end.

(** [isExcludingLatin(White_Space, r)]. *)
Definition isExcludingLatin_White_Space (r : Z) : bool :=
  let r16 := White_Space_R16 in
  let off := White_Space_LatinOffset in
  match last r16 with
  | Some (_, hi, _) =>
      if (off <? length r16)%nat && (r <=? hi) then is16 (drop off r16) (uint16 r)
      else false
  | None => false
  end.

(** [IsSpace(r)]. *)
Definition IsSpace (r : Z) : bool :=
  if uint32 r <=? MaxLatin1 then
    (r =? 0x09) || (r =? 0x0A) || (r =? 0x0B) || (r =? 0x0C) || (r =? 0x0D)
    || (r =? 0x20) || (r =? 0x85) || (r =? 0xA0)
  else isExcludingLatin_White_Space r.

End unicode.

(** ** Package strings *)
Module gostrings.

(** The table [asciiSpace]. *)
Definition asciiSpace (c : Z) : bool :=
  (c =? 0x09) || (c =? 0x0A) || (c =? 0x0B) || (c =? 0x0C) || (c =? 0x0D)
  || (c =? 0x20).

(** [indexFunc(s, f, truth)]: index of the first rune [r] of [s] with
    [f(r) == truth], or -1. *)
Fixpoint indexFunc_in (rs : list (Z * Z)) (f : Z -> bool) (truth : bool) : Z :=
  match rs with
  | [] => -1
  | (i, r) :: rs' =>
      if Bool.eqb (f r) truth then i else indexFunc_in rs' f truth
  end.

Definition indexFunc (s : bytes) (f : Z -> bool) (truth : bool) : Z :=
  indexFunc_in (utf8.range s) f truth.

(** [lastIndexFunc(s, f, truth)]: the loop
    [for i := len(s); i > 0; { r, size := DecodeLastRuneInString(s[0:i]); i -= size; ... }]. *)
Fixpoint lastIndexFunc_loop (fuel : nat) (s : bytes) (i : Z)
    (f : Z -> bool) (truth : bool) : Z :=
  match fuel with
  | O => -1
  | S fuel' =>
      if 0 <? i then
        let '(r, size) := utf8.DecodeLastRuneInString (upto i s) in
        let i := i - size in
        if Bool.eqb (f r) truth then i
        else lastIndexFunc_loop fuel' s i f truth
      else -1
  end.

Definition lastIndexFunc (s : bytes) (f : Z -> bool) (truth : bool) : Z :=
  lastIndexFunc_loop (length s) s (len s) f truth.

Definition TrimLeftFunc (s : bytes) (f : Z -> bool) : bytes :=
  let i := indexFunc s f false in
  if i =? -1 then [] else from i s.

Definition TrimRightFunc (s : bytes) (f : Z -> bool) : bytes :=
  let i := lastIndexFunc s f false in
  let i :=
    if (0 <=? i) && (utf8.RuneSelf <=? at_ s i) then
      i + snd (utf8.DecodeRuneInString (from i s))
    else i + 1 in
  upto i s.

Definition TrimFunc (s : bytes) (f : Z -> bool) : bytes :=
  TrimRightFunc (TrimLeftFunc s f) f.

(** The second loop of [TrimSpace], on [s[start:]]: [stop] walks down from
    the end over ASCII space. *)
Fixpoint TrimSpace_stop (fuel : nat) (s : bytes) (stop : Z) : bytes :=
  match fuel with
  | O => upto stop s
  | S fuel' =>
      if 0 <? stop then
        let c := at_ s (stop - 1) in
        if utf8.RuneSelf <=? c then TrimRightFunc (upto stop s) unicode.IsSpace
        else if negb (asciiSpace c) then upto stop s
        else TrimSpace_stop fuel' s (stop - 1)
      else upto stop s
  end.

(** The first loop of [TrimSpace]: [start] walks up over ASCII space; the
    argument is [s[start:]]. *)
Fixpoint TrimSpace_start (s : bytes) : bytes :=
  match s with
  | [] => TrimSpace_stop 0 s 0
  | c :: s' =>
      if utf8.RuneSelf <=? b2z c then TrimFunc s unicode.IsSpace
      else if negb (asciiSpace (b2z c)) then TrimSpace_stop (length s) s (len s)
      else TrimSpace_start s'
  end.

Definition TrimSpace_bytes (s : bytes) : bytes := TrimSpace_start s.

Definition TrimSpace (s : string) : string :=
  string_of_list_ascii (TrimSpace_bytes (list_ascii_of_string s)).

(** [HasPrefix(s, prefix)]. *)
Fixpoint HasPrefix (s prefix : bytes) {struct prefix} : bool :=
  match prefix, s with
  | [], _ => true
  | _ :: _, [] => false
  | p :: prefix', c :: s' => Ascii.eqb c p && HasPrefix s' prefix'
  end.

(** [Index(s, substr)]: the index of the first instance of [substr] in
    [s], or -1; [i] is the index of the suffix under inspection. *)
Fixpoint Index_from (s substr : bytes) (i : Z) : Z :=
  if HasPrefix s substr then i
  else match s with
       | [] => -1
       | _ :: s' => Index_from s' substr (i + 1)
       end.

Definition Index (s substr : bytes) : Z := Index_from s substr 0.

Definition IndexByte (s : bytes) (c : ascii) : Z := Index s [c].

Definition Contains_bytes (s substr : bytes) : bool := 0 <=? Index s substr.

Definition Contains (s substr : string) : bool :=
  Contains_bytes (list_ascii_of_string s) (list_ascii_of_string substr).

(** [IndexRune(s, r)]. *)
Definition IndexRune (s : bytes) (r : Z) : Z :=
  if (0 <=? r) && (r <? utf8.RuneSelf) then IndexByte s (z2b r)
  else if r =? utf8.RuneError then
    indexFunc s (fun r => r =? utf8.RuneError) true
  else if negb (utf8.ValidRune r) then -1
  else Index s (utf8.AppendRune r).

(** [makeASCIISet(chars)] succeeds when every byte of [chars] is ASCII;
    the set then holds exactly the bytes of [chars]. *)
Definition isASCII (chars : bytes) : bool :=
  forallb (fun c => b2z c <? utf8.RuneSelf) chars.

Definition asciiSet_contains (chars : bytes) (c : ascii) : bool :=
  existsb (Ascii.eqb c) chars.

Fixpoint IndexAny_ascii (s chars : bytes) (i : Z) : Z :=
  match s with
  | [] => -1
  | c :: s' =>
      if asciiSet_contains chars c then i else IndexAny_ascii s' chars (i + 1)
  end.

(** [IndexAny(s, chars)]. *)
Definition IndexAny (s chars : bytes) : Z :=
  match chars with
  | [] => -1
  | [c] =>
      let r := b2z c in
      let r := if utf8.RuneSelf <=? r then utf8.RuneError else r in
      IndexRune s r
  | _ =>
      if (8 <? len s) && isASCII chars then IndexAny_ascii s chars 0
      else indexFunc s (fun c => 0 <=? IndexRune chars c) true
  end.

Definition ContainsAny (s chars : string) : bool :=
  0 <=? IndexAny (list_ascii_of_string s) (list_ascii_of_string chars).

(** [Count(s, substr)]: the number of non-overlapping instances. *)
Fixpoint Count_loop (fuel : nat) (s substr : bytes) (n : Z) : Z :=
  match fuel with
  | O => n
  | S fuel' =>
      let i := Index s substr in
      if i =? -1 then n
      else Count_loop fuel' (from (i + len substr) s) substr (n + 1)
  end.

Definition Count (s substr : bytes) : Z :=
  if len substr =? 0 then utf8.RuneCountInString s + 1
  else Count_loop (length s) s substr 0.

(** The replacement loop of [Replace]: [k] replacements are still to be
    made, [i] counts those made, [s] is [s[start:]]. *)
Fixpoint Replace_loop (k : nat) (i : Z) (s old new : bytes) : bytes :=
  match k with
  | O => s
  | S k' =>
      let j :=
        if len old =? 0 then
          if 0 <? i then snd (utf8.DecodeRuneInString s) else 0
        else Index s old in
      upto j s ++ new ++ Replace_loop k' (i + 1) (from (j + len old) s) old new
  end.

(** [Replace(s, old, new, n)]. *)
Definition Replace_bytes (s old new : bytes) (n : Z) : bytes :=
  if bool_decide (old = new) || (n =? 0) then s
  else
    let m := Count s old in
    if m =? 0 then s
    else
      let n := if (n <? 0) || (m <? n) then m else n in
      Replace_loop (Z.to_nat n) 0 s old new.

Definition Replace (s old new : string) (n : Z) : string :=
  string_of_list_ascii
    (Replace_bytes (list_ascii_of_string s) (list_ascii_of_string old)
       (list_ascii_of_string new) n).

End gostrings.

(** ** Errors

    A Go [error] is observed through its message [Error()] and through
    [os.IsNotExist]; an error value is the pair of these observations. *)
Record error := { Error : string; notExist : bool }.

(** [errors.New(s)], and [fmt.Errorf] with the verb [%v]: a plain message,
    never a "does not exist" error. *)
Definition errorString (s : string) : error :=
  {| Error := s; notExist := false |}.

(** [io.EOF]. *)
Definition EOF : error := errorString "EOF".

(** [os.IsNotExist(err)]; it is false of [nil]. *)
Definition IsNotExist (err : option error) : bool :=
  match err with
  | Some e => notExist e
  | None => false
  end.

(** ** The operating system

    The calls the program makes to its environment.  What they return, and
    how they change the environment, is up to the environment: the program
    is verified against every [OS]. *)
Inductive Syscall :=
| Exec (name : string) (args : list string)
    (* exec.Command(name, args...).Run(), output streams inherited *)
| MkdirAll (path : string) (perm : Z)
| Stat (path : string)
| Chdir (dir : string)
| RemoveAll (path : string)
| Remove (name : string)
| ReadFile (name : string)
| WriteFile (name : string) (data : string) (perm : Z)
| Open (name : string)       (* os.Open and the reads of the scanner *)
| Close (name : string)
| Abs (path : string).       (* filepath.Abs *)

Record FileInfo := { Name : string; IsDir : bool }.

(** What a call returns. *)
Inductive Resp :=
| Status (err : option error)
| Bytes (data : string) (err : option error)
| Info (fi : option FileInfo) (err : option error).

Definition err_of (r : Resp) : option error :=
  match r with
  | Status err | Bytes _ err | Info _ err => err
  end.

Definition data_of (r : Resp) : string :=
  match r with
  | Bytes data _ => data
  | _ => EmptyString
  end.

Class OS := {
  state : Type;
  sys : Syscall -> state -> Resp * state;
  GOOS : string;                      (* runtime.GOOS *)
  Join : list string -> string        (* filepath.Join *)
}.

(** Everything the process does, in order. *)
Inductive Event :=
| Called (c : Syscall) (r : Resp)
| Stdout (text : string)
| Stdin (line : string) (err : option error)
| Fatal (msg : string).

Record World `{OS} := {
  os : state;
  stdin : string;           (* standard input not yet read *)
  version : string;         (* the package variable [version] of main.go *)
  events : list Event
}.

(** ** The state monad of the program *)
Definition M `{OS} (A : Type) : Type := World -> A * World.

#[global] Instance M_ret `{OS} : MRet M := fun A a w => (a, w).
#[global] Instance M_bind `{OS} : MBind M :=
  fun A B f m w => let '(a, w') := m w in f a w'.

Section Runtime.
Context `{OS}.

Definition emit (e : Event) : M unit :=
  fun w => (tt, {| os := os w; stdin := stdin w; version := version w;
                   events := events w ++ [e] |}).

Definition call (c : Syscall) : M Resp :=
  fun w =>
    let '(r, s) := sys c (os w) in
    (r, {| os := s; stdin := stdin w; version := version w;
           events := events w ++ [Called c r] |}).

(** [fmt.Printf] with its format already expanded, and [fmt.Println]. *)
Definition Printf (text : string) : M unit := emit (Stdout text).
Definition Println (text : string) : M unit :=
  emit (Stdout (text +:+ String newline EmptyString)).

(** [log.Fatalf]: the message is logged and the process exits with status 1;
    the caller stops there. *)
Definition Fatalf (msg : string) : M Z :=
  emit (Fatal msg) ;; mret 1.

(** Split at the first [delim]: the text through the delimiter and the
    rest, or [None] when there is no delimiter. *)
Fixpoint cut (delim : ascii) (s : string) : option (string * string) :=
  match s with
  | EmptyString => None
  | String c s' =>
      if Ascii.eqb c delim then Some (String c EmptyString, s')
      else match cut delim s' with
           | Some (line, rest) => Some (String c line, rest)
           | None => None
           end
  end.

(** [reader.ReadString(delim)] on standard input: the text through the
    first delimiter; at the end of the input, what is left and [io.EOF]. *)
Definition ReadString (delim : ascii) : M (string * option error) :=
  fun w =>
    let '(line, rest, err) :=
      match cut delim (stdin w) with
      | Some (line, rest) => (line, rest, None)
      | None => (stdin w, EmptyString, Some EOF)
      end in
    ((line, err),
     {| os := os w; stdin := rest; version := version w;
        events := events w ++ [Stdin line err] |}).

(** [if err := m; err != nil { return wrap(err) }] followed by [k]. *)
Definition orReturn (m : M (option error)) (wrap : error -> error)
    (k : M (option error)) : M (option error) :=
  err ← m;
  match err with
  | Some e => mret (Some (wrap e))
  | None => k
  end.

(** [if err := m; err != nil && fatal(err) { return wrap(err) }] followed
    by [k]. *)
Definition orReturnWhen (m : M (option error)) (fatal : option error -> bool)
    (wrap : error -> error) (k : M (option error)) : M (option error) :=
  err ← m;
  match err with
  | Some e => if fatal err then mret (Some (wrap e)) else k
  | None => k
  end.

(** The calls of package os that return only an error. *)
Definition os_call (c : Syscall) : M (option error) :=
  r ← call c; mret (err_of r).

(** [os.ReadFile(name)]. *)
Definition os_ReadFile (name : string) : M (string * option error) :=
  r ← call (ReadFile name); mret (data_of r, err_of r).

(** [fmt.Errorf(prefix + "%v", err)]. *)
Definition Errorf (prefix : string) (err : error) : error :=
  errorString (prefix +:+ Error err).

End Runtime.

Notation "'check' m 'else' 'return' wrap ; k" := (orReturn m wrap k)
  (at level 20, m at level 100, wrap at level 100, k at level 200,
   only parsing).
Notation "'check' m 'unless' ok 'else' 'return' wrap ; k" :=
  (orReturnWhen m (fun err => negb (ok err)) wrap k)
  (at level 20, m at level 100, ok at level 100, wrap at level 100,
   k at level 200, only parsing).

(** ** What both revisions share *)
Section Common.
Context `{OS}.

Definition repoURL : string := "https://github.com/AndrewDonelson/my-app".
Definition defaultProjectName : string := "my-new-app".

Record CommandRunner := { isWindows : bool }.

Definition NewCommandRunner : CommandRunner :=
  {| isWindows := String.eqb GOOS "windows" |}.

Definition execCommand (cr : CommandRunner) (name : string)
    (args : list string) : M (option error) :=
  r ← call (Exec name args); mret (err_of r).

Definition getNPMCommand (cr : CommandRunner) : string :=
  if isWindows cr then "npm.cmd" else "npm".

Definition getGHCommand (cr : CommandRunner) : string :=
  if isWindows cr then "gh.exe" else "gh".

Definition checkPrerequisites (cr : CommandRunner) : M (option error) :=
  (* Check for git *)
  check execCommand cr "git" ["--version"]
  else return (fun _ => errorString "git is not installed or not in PATH");
  (* Check for GitHub CLI *)
  check execCommand cr (getGHCommand cr) ["--version"]
  else return (fun _ =>
    errorString "GitHub CLI (gh) is not installed or not in PATH");
  (* Check for npm *)
  check execCommand cr (getNPMCommand cr) ["--version"]
  else return (fun _ => errorString "npm is not installed or not in PATH");
  mret None.

End Common.

Definition nl : string := String newline EmptyString.

Definition inspect {A : Type} (a : A) : { b : A | a = b } :=
  exist _ a eq_refl.

(** How one pass of a [for { ... }] loop ends. *)
Inductive Control (A : Type) :=
| Return (a : A)
| Continue.
Arguments Return {A} a.
Arguments Continue {A}.

(** ** main.go *)
Module Scaffold.
Section Program.
Context `{OS}.

Definition CompanyName : string := "Nlaak Studios".
Definition WebsiteURL : string := "https://nlaak.com".
Definition projectsDir : string := "C:\Users\andre\NextJS-Projects".
Definition webappsDir : string := "webapps".

(** The nine characters of the literal given to [strings.ContainsAny]:
    backslash, slash, colon, star, question mark, double quote, the two
    angle brackets and the bar. *)
Definition invalidChars : string := "\/:*?" +:+ String dquote "<>|".

(** The two lines of the manifest that [createProject] exchanges. *)
Definition predevLine : string :=
  quoted "predev" +:+ ": " +:+
  quoted "npx convex dev --until-success && node setup.mjs --once && npx convex dashboard".
Definition predevPlaceholder : string :=
  quoted "predev" +:+ ": " +:+
  quoted "echo Skipping predev script for initial setup".

Definition displayHeader : M unit :=
  fun w =>
    let w :=
      if String.eqb (version w) EmptyString then
        {| os := os w; stdin := stdin w; version := "dev.build";
           events := events w |}
      else w in
    (Printf (nl +:+ CompanyName +:+ " WebApp Utility v" +:+ version w +:+ nl) ;;
     Printf ("----------------------------------------" +:+ nl) ;;
     Printf ("Website: " +:+ WebsiteURL +:+ nl +:+ nl)) w.

Definition ensureWebappsDir : M (option error) :=
  let fullWebappsPath := Join [projectsDir; webappsDir] in
  check os_call (MkdirAll fullWebappsPath 493 (* 0755 *))
  else return Errorf "failed to create webapps directory: ";
  mret None.

Definition isProjectExists (name : string) : M bool :=
  let projectPath := Join [projectsDir; webappsDir; name] in
  r ← call (Stat projectPath);
  mret (negb (IsNotExist (err_of r))).

(** One pass of the loop of [promptProjectName]. *)
Definition promptProjectName_pass : M (Control string) :=
  Printf ("Enter the name for your new WebApp (default: " +:+
          defaultProjectName +:+ "): ") ;;
  '(name, err) ← ReadString newline;
  match err with
  | Some _ => mret (Return defaultProjectName)
  | None =>
      let name := gostrings.TrimSpace name in
      let name := if String.eqb name EmptyString then defaultProjectName else name in
      found ← isProjectExists name;
      if found : bool then
        Printf (nl +:+ "A project with the name '" +:+ name +:+
                "' already exists. Please choose a different name." +:+
                nl +:+ nl) ;;
        mret Continue
      else
        (* Basic name validation *)
        if gostrings.ContainsAny name invalidChars then
          Println (nl +:+ "Project name contains invalid characters. Please use only letters, numbers, dashes, and underscores." +:+ nl) ;;
          mret Continue
        else mret (Return name)
  end.

(** [for { ... }]: every pass that continues has read a line, so the loop
    ends when standard input does. *)
Equations? promptProjectName (w : World) : string * World
  by wf (String.length (stdin w)) lt :=
promptProjectName w with inspect (promptProjectName_pass w) := {
  | exist _ (Return name, w') _ => (name, w')
  | exist _ (Continue, w') _ => promptProjectName w' }.
Proof.
  assert (Hcut : forall s line rest, cut newline s = Some (line, rest) ->
                 (String.length rest < String.length s)%nat).
  { induction s as [|c s IH]; intros line rest; simpl; [discriminate|].
    destruct (Ascii.eqb c newline).
    - intros [= <- <-]. lia.
    - destruct (cut newline s) as [[l r]|] eqn:E; [|discriminate].
      intros [= <- <-]. specialize (IH _ _ eq_refl). lia. }
  revert e. destruct w as [s0 inp v ev].
  cbv beta iota delta [promptProjectName_pass mbind M_bind Printf emit
    ReadString isProjectExists call Println mret M_ret].
  cbn [stdin os version events].
  destruct (cut newline inp) as [[line rest]|] eqn:E; [|discriminate].
  apply Hcut in E.
  match goal with |- context [sys ?c ?s] => destruct (sys c s) as [r s'] end.
  destruct (negb _); [intros [= <-]; exact E|].
  destruct (gostrings.ContainsAny _ _); intros [= <-]; exact E.
Defined.

(** The last block of [createProject]: read the manifest, back it up,
    exchange the predev line, write it back. *)
Definition createProject_manifest : M (option error) :=
  (* Modify package.json to remove predev script temporarily *)
  Println "Adjusting package.json for initial setup..." ;;
  '(packageJSON, err) ← os_ReadFile "package.json";
  match err with
  | Some err => mret (Some (Errorf "failed to read package.json: " err))
  | None =>
      (* Create backup of original package.json *)
      check os_call (WriteFile "package.json.backup" packageJSON 420 (* 0644 *))
      else return Errorf "failed to create package.json backup: ";
      (* Replace predev script with simpler version *)
      let packageJSONStr := packageJSON in
      let packageJSONStr :=
        gostrings.Replace packageJSONStr predevLine predevPlaceholder 1 in
      check os_call (WriteFile "package.json" packageJSONStr 420 (* 0644 *))
      else return Errorf "failed to write modified package.json: ";
      Println (nl +:+ "Project setup completed successfully!") ;;
      mret None
  end.

Definition createProject (cr : CommandRunner) (projectName : string)
  : M (option error) :=
  check ensureWebappsDir else return (fun err => err);
  (* Get absolute path for the project within webapps directory *)
  let fullWebappsPath := Join [projectsDir; webappsDir] in
  let projectPath := Join [fullWebappsPath; projectName] in
  (* Already checked in promptProjectName, but double-check *)
  found ← isProjectExists projectName;
  if found : bool then
    mret (Some (errorString ("directory " +:+ projectPath +:+
                             " already exists")))
  else
  (* First change to the webapps directory *)
  check os_call (Chdir fullWebappsPath)
  else return Errorf "failed to change to webapps directory: ";
  Printf ("Creating new WebApp: " +:+ projectName +:+ nl) ;;
  (* Clone the repository *)
  check execCommand cr (getGHCommand cr) ["repo"; "clone"; repoURL; projectName]
  else return Errorf "failed to clone repository: ";
  (* Change to project directory *)
  check os_call (Chdir projectPath)
  else return Errorf "failed to change to project directory: ";
  (* Remove existing git directory *)
  check os_call (RemoveAll ".git")
  else return Errorf "failed to remove existing .git directory: ";
  (* Initialize new git repository *)
  Println "Initializing new git repository..." ;;
  check execCommand cr "git" ["init"]
  else return Errorf "failed to initialize git repository: ";
  (* Set up initial commit *)
  check execCommand cr "git" ["add"; "."]
  else return Errorf "failed to stage files: ";
  check execCommand cr "git" ["commit"; "-m"; "Initial commit"]
  else return Errorf "failed to create initial commit: ";
  (* Clean install node_modules *)
  Println "Cleaning existing node_modules..." ;;
  check os_call (RemoveAll "node_modules")
  else return Errorf "failed to remove node_modules: ";
  (* Clean package-lock.json *)
  check os_call (Remove "package-lock.json") unless IsNotExist
  else return Errorf "failed to remove package-lock.json: ";
  (* Install dependencies *)
  Println "Installing dependencies..." ;;
  check execCommand cr (getNPMCommand cr) ["install"]
  else return Errorf "failed to install dependencies: ";
  createProject_manifest.

(** [main]; the result is the exit status of the process. *)
Definition main : M Z :=
  (* Display header *)
  displayHeader ;;
  let cr := NewCommandRunner in
  (* Check prerequisites *)
  err ← checkPrerequisites cr;
  match err with
  | Some err => Fatalf ("Prerequisite check failed: " +:+ Error err)
  | None =>
  (* Ensure webapps directory exists *)
  err ← ensureWebappsDir;
  match err with
  | Some err => Fatalf ("Failed to setup projects directory: " +:+ Error err)
  | None =>
  (* Get project name with validation *)
  projectName ← promptProjectName;
  (* Create the project *)
  err ← createProject cr projectName;
  match err with
  | Some err => Fatalf ("Failed to create project: " +:+ Error err)
  | None =>
  (* Instead of trying to change the directory, provide the command *)
  let projectPath := Join [projectsDir; webappsDir; projectName] in
  Println (nl +:+ "To continue setup, run these commands:") ;;
  Printf (nl +:+ "   cd " +:+ projectPath +:+ nl) ;;
  Println "   mv package.json.backup package.json" ;;
  Println "   npm run dev" ;;
  mret 0
  end end end.

End Program.
End Scaffold.

(** ** The earlier revision, with the [--skip-setup] flag *)
Module Launcher.
Section Program.
Context `{OS}.

(** [bufio.MaxScanTokenSize]. *)
Definition MaxScanTokenSize : Z := 64 * 1024.

(** [dropCR]: a line without its trailing carriage return. *)
Fixpoint dropCR (line : string) : string :=
  match line with
  | EmptyString => EmptyString
  | String c EmptyString =>
      if Ascii.eqb c "013"%char then EmptyString else line
  | String c rest => String c (dropCR rest)
  end.

Fixpoint dropLast (line : string) : string :=
  match line with
  | EmptyString => EmptyString
  | String c EmptyString => EmptyString
  | String c rest => String c (dropLast rest)
  end.

(** The tokens a [bufio.Scanner] with [ScanLines] yields on [data]: the
    lines without their end-of-line marker, up to the first line that does
    not fit the buffer, where [Scan] gives up. *)
Fixpoint scanLines (fuel : nat) (data : string) : list string :=
  match fuel with
  | O => []
  | S fuel' =>
      match cut newline data with
      | Some (line, rest) =>
          if MaxScanTokenSize <=? Z.of_nat (String.length (dropLast line)) then []
          else dropCR (dropLast line) :: scanLines fuel' rest
      | None =>
          if String.eqb data EmptyString then []
          else if MaxScanTokenSize <=? Z.of_nat (String.length data) then []
          else [dropCR data]
      end
  end.

Definition checkSetupScript (projectPath : string) : M bool :=
  let envPath := Join [projectPath; ".env.local"] in
  r ← call (Open envPath);
  match err_of r with
  | Some _ => mret false
  | None =>
      let data := data_of r in
      let found :=
        existsb (fun text => gostrings.Contains text "SETUP_SCRIPT_RAN=1")
                (scanLines (S (String.length data)) data) in
      call (Close envPath) ;;   (* defer file.Close() *)
      mret found
  end.

Definition promptProjectName : M string :=
  Printf ("Enter the name for your new WebApp (default: " +:+
          defaultProjectName +:+ "): ") ;;
  '(name, err) ← ReadString newline;
  match err with
  | Some _ => mret defaultProjectName
  | None =>
      let name := gostrings.TrimSpace name in
      if String.eqb name EmptyString then mret defaultProjectName
      else mret name
  end.

Definition createProject (cr : CommandRunner) (projectName : string)
  : M (option error) :=
  (* Get absolute path for the project *)
  r ← call (Abs projectName);
  match err_of r with
  | Some err => mret (Some (Errorf "failed to get absolute path: " err))
  | None =>
  let projectPath := data_of r in
  (* Check if project directory already exists *)
  r ← call (Stat projectPath);
  if negb (IsNotExist (err_of r)) then
    mret (Some (errorString ("directory " +:+ projectPath +:+
                             " already exists")))
  else
  Printf ("Creating new WebApp: " +:+ projectName +:+ nl) ;;
  (* Clone the repository *)
  check execCommand cr (getGHCommand cr) ["repo"; "clone"; repoURL; projectName]
  else return Errorf "failed to clone repository: ";
  (* Change to project directory *)
  check os_call (Chdir projectPath)
  else return Errorf "failed to change to project directory: ";
  (* Install dependencies *)
  Println "Installing dependencies..." ;;
  check execCommand cr (getNPMCommand cr) ["install"]
  else return Errorf "failed to install dependencies: ";
  mret None
  end.

Definition startDevServer (cr : CommandRunner) : M (option error) :=
  execCommand cr (getNPMCommand cr) ["run"; "dev"].

(** [main]; [skipSetup] is the value of the flag [--skip-setup] after
    [flag.Parse()], the result is the exit status of the process. *)
Definition main (skipSetup : bool) : M Z :=
  let cr := NewCommandRunner in
  (* Check prerequisites *)
  err ← checkPrerequisites cr;
  match err with
  | Some err => Fatalf ("Prerequisite check failed: " +:+ Error err)
  | None =>
  (* If skip-setup is true and we're in a project directory, just start the
     dev server *)
  if skipSetup then
    err ← startDevServer cr;
    match err with
    | Some err => Fatalf ("Failed to start development server: " +:+ Error err)
    | None => mret 0
    end
  else
  (* Get project name *)
  projectName ← promptProjectName;
  (* Create the project *)
  err ← createProject cr projectName;
  match err with
  | Some err => Fatalf ("Failed to create project: " +:+ Error err)
  | None =>
  (* Check if setup script has already run *)
  ran ← checkSetupScript projectName;
  (if ran : bool then
     Println "Setup script has already run. Starting development server..."
   else mret tt) ;;
  (* Start the development server *)
  err ← startDevServer cr;
  match err with
  | Some err => Fatalf ("Failed to start development server: " +:+ Error err)
  | None => mret 0
  end
  end
  end.

End Program.
End Launcher.

(** ** A small machine to run the program on

    Regular files by name, the paths that are directories, the paths the
    process may not touch, and the tools that are not installed. *)
Record Machine := {
  files : gmap string string;
  dirs : list string;
  denied : list string;
  missing : list string
}.

Definition mem (x : string) (l : list string) : bool :=
  existsb (String.eqb x) l.

Definition notFound (op path : string) : error :=
  {| Error := op +:+ " " +:+ path +:+ ": no such file or directory";
     notExist := true |}.

Definition permissionDenied (op path : string) : error :=
  {| Error := op +:+ " " +:+ path +:+ ": permission denied";
     notExist := false |}.

Definition executableNotFound (name : string) : error :=
  errorString ("exec: " +:+ quoted name +:+
               ": executable file not found in $PATH").

Fixpoint joinWith (sep : string) (parts : list string) : string :=
  match parts with
  | [] => EmptyString
  | [p] => p
  | p :: rest => p +:+ sep +:+ joinWith sep rest
  end.

Definition Machine_sys (c : Syscall) (m : Machine) : Resp * Machine :=
  let withFiles (f : gmap string string) :=
    {| files := f; dirs := dirs m; denied := denied m;
       missing := missing m |} in
  match c with
  | Exec name _ =>
      if mem name (missing m) then (Status (Some (executableNotFound name)), m)
      else (Status None, m)
  | MkdirAll path _ =>
      if mem path (denied m) then
        (Status (Some (permissionDenied "mkdir" path)), m)
      else (Status None,
            {| files := files m; dirs := path :: dirs m; denied := denied m;
               missing := missing m |})
  | Stat path =>
      if mem path (denied m) then
        (Info None (Some (permissionDenied "stat" path)), m)
      else if mem path (dirs m) then
        (Info (Some {| Name := path; IsDir := true |}) None, m)
      else match files m !! path with
           | Some _ => (Info (Some {| Name := path; IsDir := false |}) None, m)
           | None => (Info None (Some (notFound "stat" path)), m)
           end
  | Chdir dir =>
      if mem dir (denied m) then
        (Status (Some (permissionDenied "chdir" dir)), m)
      else (Status None, m)
  | RemoveAll path =>
      if mem path (denied m) then
        (Status (Some (permissionDenied "unlinkat" path)), m)
      else (Status None, withFiles (delete path (files m)))
  | Remove name =>
      if mem name (denied m) then
        (Status (Some (permissionDenied "remove" name)), m)
      else match files m !! name with
           | Some _ => (Status None, withFiles (delete name (files m)))
           | None => (Status (Some (notFound "remove" name)), m)
           end
  | ReadFile name | Open name =>
      if mem name (denied m) then
        (Bytes EmptyString (Some (permissionDenied "open" name)), m)
      else match files m !! name with
           | Some data => (Bytes data None, m)
           | None => (Bytes EmptyString (Some (notFound "open" name)), m)
           end
  | WriteFile name data _ =>
      if mem name (denied m) then
        (Status (Some (permissionDenied "open" name)), m)
      else (Status None, withFiles (<[name := data]> (files m)))
  | Close _ => (Status None, m)
  | Abs path => (Bytes ("/home/dev/" +:+ path) None, m)
  end.

Definition MachineOS (goos : string) : OS :=
  {| state := Machine; sys := Machine_sys; GOOS := goos;
     Join := joinWith "/" |}.

(** A world on the machine, with the given standard input. *)
Definition boot (goos : string) (m : Machine) (input : string)
  : @World (MachineOS goos) :=
  {| os := (m : @state (MachineOS goos)); stdin := input;
     version := EmptyString; events := [] |}.

Definition emptyMachine : Machine :=
  {| files := ∅; dirs := []; denied := []; missing := [] |}.

(** ** Reading a run

    The calls of a trace with their answers, in order; that the answers
    are the ones the operating system gave; and the fail-fast discipline of
    a list of steps. *)
Definition calls (evs : list Event) : list (Syscall * Resp) :=
  flat_map (fun e => match e with
                     | Called c r => [(c, r)]
                     | _ => []
                     end) evs.

(** What was written to standard output and read from standard input. *)
Definition interactions (evs : list Event) : list Event :=
  List.filter (fun e => match e with
                        | Stdout _ | Stdin _ _ => true
                        | _ => false
                        end) evs.

Inductive answered `{OS} : state -> list (Syscall * Resp) -> state -> Prop :=
| answered_nil s : answered s [] s
| answered_cons s c r s' t s'' :
    sys c s = (r, s') -> answered s' t s'' -> answered s ((c, r) :: t) s''.

(** A step of a workflow: the call it makes, and the error the workflow
    returns when the answer counts as a failure of the step. *)
Record Step := {
  step_call : Syscall;
  step_outcome : Resp -> option error
}.

(** The steps run in order; the first one that fails ends the run with
    its error, and nothing is called after it. *)
Inductive FailFast : list Step -> list (Syscall * Resp) -> option error -> Prop :=
| FailFast_done : FailFast [] [] None
| FailFast_next st steps r t res :
    step_outcome st r = None ->
    FailFast steps t res ->
    FailFast (st :: steps) ((step_call st, r) :: t) res
| FailFast_stop st steps r err :
    step_outcome st r = Some err ->
    FailFast (st :: steps) [(step_call st, r)] (Some err).

(** A step that fails exactly when its call returns an error, reported
    under [prefix]. *)
Definition plain (c : Syscall) (prefix : string) : Step :=
  {| step_call := c;
     step_outcome := fun r => option_map (Errorf prefix) (err_of r) |}.

(** The three probes of §4.1, with the tool each one reports missing. *)
Definition probe (c : Syscall) (message : string) : Step :=
  {| step_call := c;
     step_outcome := fun r => option_map (fun _ => errorString message) (err_of r) |}.

Definition probes (cr : CommandRunner) : list Step :=
  [ probe (Exec "git" ["--version"]) "git is not installed or not in PATH";
    probe (Exec (getGHCommand cr) ["--version"])
          "GitHub CLI (gh) is not installed or not in PATH";
    probe (Exec (getNPMCommand cr) ["--version"])
          "npm is not installed or not in PATH" ].

(** The ordered workflow of §4.3 as [Scaffold.createProject] runs it on a
    manifest of content [manifest]. *)
Definition workflow `{OS} (cr : CommandRunner) (projectName manifest : string)
  : list Step :=
  let fullWebappsPath := Join [Scaffold.projectsDir; Scaffold.webappsDir] in
  let projectPath := Join [fullWebappsPath; projectName] in
  [ (* 1 *) plain (MkdirAll fullWebappsPath 493)
                  "failed to create webapps directory: ";
    (* 2 *) {| step_call :=
                 Stat (Join [Scaffold.projectsDir; Scaffold.webappsDir; projectName]);
               step_outcome := fun r =>
                 if IsNotExist (err_of r) then None
                 else Some (errorString ("directory " +:+ projectPath +:+
                                         " already exists")) |};
    (* 3 *) plain (Chdir fullWebappsPath)
                  "failed to change to webapps directory: ";
    (* 4 *) plain (Exec (getGHCommand cr) ["repo"; "clone"; repoURL; projectName])
                  "failed to clone repository: ";
    (* 5 *) plain (Chdir projectPath)
                  "failed to change to project directory: ";
    (* 6 *) plain (RemoveAll ".git")
                  "failed to remove existing .git directory: ";
    (* 7 *) plain (Exec "git" ["init"])
                  "failed to initialize git repository: ";
    (* 8 *) plain (Exec "git" ["add"; "."]) "failed to stage files: ";
            plain (Exec "git" ["commit"; "-m"; "Initial commit"])
                  "failed to create initial commit: ";
    (* 9 *) plain (RemoveAll "node_modules") "failed to remove node_modules: ";
            {| step_call := Remove "package-lock.json";
               step_outcome := fun r =>
                 if IsNotExist (err_of r) then None
                 else option_map (Errorf "failed to remove package-lock.json: ")
                                 (err_of r) |};
    (* 10 *) plain (Exec (getNPMCommand cr) ["install"])
                   "failed to install dependencies: ";
    (* 11 *) plain (ReadFile "package.json") "failed to read package.json: ";
             plain (WriteFile "package.json.backup" manifest 420)
                   "failed to create package.json backup: ";
             plain (WriteFile "package.json"
                      (gostrings.Replace manifest Scaffold.predevLine
                         Scaffold.predevPlaceholder 1) 420)
                   "failed to write modified package.json: " ].

(** ** Files

    What the manifest theorems need to know of a file system: a file read
    back holds what was written to it, and reading a file or writing
    another one (successfully or not) leaves it as it is. *)
Class FileStore `{OS} := {
  file : state -> string -> option string;
  ReadFile_content : forall s name r s',
    sys (ReadFile name) s = (r, s') ->
    (forall n, file s' n = file s n) /\
    (err_of r = None -> file s name = Some (data_of r));
  WriteFile_content : forall s name data perm r s',
    sys (WriteFile name data perm) s = (r, s') ->
    (forall n, n <> name -> file s' n = file s n) /\
    (err_of r = None -> file s' name = Some data)
}.

(** ** What the theorems speak of *)

(** The message of a collision at [path]. *)
Definition alreadyExists (path : string) : error :=
  errorString ("directory " +:+ path +:+ " already exists").

(** The step a report of [Scaffold.createProject] comes from, read off
    the message: the position of the first known opening it starts with. *)
Definition reportOpenings : list string :=
  [ "failed to create webapps directory: ";
    "directory ";
    "failed to change to webapps directory: ";
    "failed to clone repository: ";
    "failed to change to project directory: ";
    "failed to remove existing .git directory: ";
    "failed to initialize git repository: ";
    "failed to stage files: ";
    "failed to create initial commit: ";
    "failed to remove node_modules: ";
    "failed to remove package-lock.json: ";
    "failed to install dependencies: ";
    "failed to read package.json: ";
    "failed to create package.json backup: ";
    "failed to write modified package.json: " ].

Fixpoint startsWith (opening msg : string) : bool :=
  match opening with
  | EmptyString => true
  | String a opening' =>
      match msg with
      | EmptyString => false
      | String b msg' => Ascii.eqb a b && startsWith opening' msg'
      end
  end.

Fixpoint step_of_message_from (openings : list string) (i : nat)
    (msg : string) : option nat :=
  match openings with
  | [] => None
  | o :: rest =>
      if startsWith o msg then Some i
      else step_of_message_from rest (S i) msg
  end.

Definition step_of_message (msg : string) : option nat :=
  step_of_message_from reportOpenings 0 msg.

(** White space, as package unicode has it, and text made of nothing
    else: the UTF-8 encodings of white space runes, one after the other. *)
Definition SpaceRune (r : Z) : Prop :=
  0 <= r <= utf8.MaxRune /\ unicode.IsSpace r = true.

Inductive blank_bytes : bytes -> Prop :=
| blank_nil : blank_bytes []
| blank_cons r s :
    SpaceRune r -> blank_bytes s -> blank_bytes (utf8.AppendRune r ++ s).

Definition blank (s : string) : Prop := blank_bytes (list_ascii_of_string s).

(** What the prompt of main.go prints. *)
Definition promptText : string :=
  "Enter the name for your new WebApp (default: " +:+ defaultProjectName +:+
  "): ".
Definition existsMessage (name : string) : string :=
  nl +:+ "A project with the name '" +:+ name +:+
  "' already exists. Please choose a different name." +:+ nl +:+ nl.
Definition invalidMessage : string :=
  (nl +:+ "Project name contains invalid characters. Please use only letters, numbers, dashes, and underscores." +:+ nl) +:+ nl.

(** The name a line stands for: the line without the white space around
    it, or the default when nothing is left. *)
Definition candidate (line : string) : string :=
  if String.eqb (gostrings.TrimSpace line) EmptyString then defaultProjectName
  else gostrings.TrimSpace line.

Section NamerTerms.
Context `{OS}.

(** The path the existence check of main.go looks at. *)
Definition target (name : string) : string :=
  Join [Scaffold.projectsDir; Scaffold.webappsDir; name].

(** The world after a line was read and its candidate name checked
    against the file system, with what was printed after that. *)
Definition afterCheck (w : World) (line rest : string) (r : Resp) (s : state)
    (printed : list Event) : World :=
  {| os := s; stdin := rest; version := version w;
     events := events w ++
               [Stdout promptText; Stdin line None;
                Called (Stat (target (candidate line))) r] ++ printed |}.

(** What holds of every name the prompt of main.go returns. *)
Definition Validated (res : string * World) : Prop :=
  res.1 <> EmptyString /\
  gostrings.ContainsAny res.1 Scaffold.invalidChars = false /\
  ((exists evs r,
      events res.2 = evs ++ [Called (Stat (target res.1)) r] /\
      IsNotExist (err_of r) = true) \/
   (res.1 = defaultProjectName /\
    exists evs rest, events res.2 = evs ++ [Stdin rest (Some EOF)])).

End NamerTerms.

(** The machine keeps its files as the manifest theorems assume. *)
#[global, refine] Instance Machine_FileStore (goos : string)
  : @FileStore (MachineOS goos) :=
  {| file := fun (m : @state (MachineOS goos)) name => files m !! name |}.
Proof.
  - intros m name r m' Hsys. cbn in Hsys. unfold Machine_sys in Hsys.
    destruct (mem name (denied m)).
    + injection Hsys as <- <-. split; [reflexivity|discriminate].
    + destruct (files m !! name) as [data|] eqn:Hf; injection Hsys as <- <-.
      * split; [reflexivity|]. intros _. reflexivity.
      * split; [reflexivity|discriminate].
  - intros m name data perm r m' Hsys. cbn in Hsys. unfold Machine_sys in Hsys.
    destruct (mem name (denied m)); injection Hsys as <- <-.
    + split; [reflexivity|discriminate].
    + cbn [files]. split.
      * intros n Hn. apply lookup_insert_ne. congruence.
      * intros _. apply lookup_insert_eq.
Defined.

(** Worlds to run the program on. *)
Definition manifestWithPredev : string :=
  "{ " +:+ quoted "scripts" +:+ ": { " +:+ Scaffold.predevLine +:+ ", " +:+
  quoted "dev" +:+ ": " +:+ quoted "next dev" +:+ " } }".

Definition manifestWithoutPredev : string :=
  "{ " +:+ quoted "scripts" +:+ ": { " +:+
  quoted "dev" +:+ ": " +:+ quoted "next dev" +:+ " } }".

Definition machineWith (manifest : string) : Machine :=
  {| files := {[ "package.json" := manifest ]}; dirs := []; denied := [];
     missing := [] |}.

(** A machine on which the default project is already there. *)
Definition machineWithDefaultProject : Machine :=
  {| files := ∅;
     dirs := [joinWith "/" [Scaffold.projectsDir; Scaffold.webappsDir;
                            defaultProjectName]];
     denied := []; missing := [] |}.

(** A machine without git. *)
Definition machineWithoutGit : Machine :=
  {| files := ∅; dirs := []; denied := []; missing := ["git"] |}.

(** ** Auxiliary definitions of the proofs *)

(** The first four bytes and the length decide [DecodeRuneInString]. *)
Definition decode4 (n s0 b1 b2 b3 : Z) : Z * Z :=
  if n <? 1 then (utf8.RuneError, 0)
  else
    let x := utf8.first s0 in
    if utf8.as_ <=? x then
      let mask := Z.shiftr (int32 (Z.shiftl x 31)) 31 in
      (Z.lor (Z.land s0 (Z.lnot mask)) (Z.land utf8.RuneError mask), 1)
    else
      let sz := Z.land x 7 in
      let accept := utf8.acceptRanges (Z.shiftr x 4) in
      if n <? sz then (utf8.RuneError, 1)
      else if (b1 <? fst accept) || (snd accept <? b1) then (utf8.RuneError, 1)
      else if sz <=? 2 then
        (Z.lor (Z.shiftl (Z.land s0 utf8.mask2) 6) (Z.land b1 utf8.maskx), 2)
      else if (b2 <? utf8.locb) || (utf8.hicb <? b2) then (utf8.RuneError, 1)
      else if sz <=? 3 then
        (Z.lor (Z.lor (Z.shiftl (Z.land s0 utf8.mask3) 12)
                      (Z.shiftl (Z.land b1 utf8.maskx) 6))
               (Z.land b2 utf8.maskx), 3)
      else if (b3 <? utf8.locb) || (utf8.hicb <? b3) then (utf8.RuneError, 1)
      else
        (Z.lor (Z.lor (Z.lor (Z.shiftl (Z.land s0 utf8.mask4) 18)
                             (Z.shiftl (Z.land b1 utf8.maskx) 12))
                      (Z.shiftl (Z.land b2 utf8.maskx) 6))
               (Z.land b3 utf8.maskx), 4).

(** The classes of a first byte. *)
Inductive FirstClass (b : Z) : Z -> Prop :=
| First_as : b < 0x80 -> FirstClass b utf8.as_
| First_xx : (0x80 <= b < 0xC2 \/ 0xF5 <= b) -> FirstClass b utf8.xx
| First_s1 : 0xC2 <= b < 0xE0 -> FirstClass b utf8.s1
| First_s2 : b = 0xE0 -> FirstClass b utf8.s2
| First_s3 : (0xE1 <= b < 0xED \/ 0xEE <= b < 0xF0) -> FirstClass b utf8.s3
| First_s4 : b = 0xED -> FirstClass b utf8.s4
| First_s5 : b = 0xF0 -> FirstClass b utf8.s5
| First_s6 : 0xF1 <= b < 0xF4 -> FirstClass b utf8.s6
| First_s7 : b = 0xF4 -> FirstClass b utf8.s7.

Definition spaceRunes : list Z :=
  [ 0x09; 0x0A; 0x0B; 0x0C; 0x0D; 0x20; 0x85; 0xA0; 0x1680;
    0x2000; 0x2001; 0x2002; 0x2003; 0x2004; 0x2005; 0x2006; 0x2007; 0x2008;
    0x2009; 0x200A; 0x2028; 0x2029; 0x202F; 0x205F; 0x3000 ].

(** A byte [TrimSpace] may remove: ASCII white space, or a byte of a rune
    above ASCII. *)
Definition trimmable (c : ascii) : Prop :=
  gostrings.asciiSpace (b2z c) = true \/ 0x80 <= b2z c.

(** * Proofs *)

Example TrimSpace_ex1 : gostrings.TrimSpace "  my app " = "my app"%string.
Proof. vm_compute. reflexivity. Qed.
Example Replace_ex1 : gostrings.Replace "a-b-c" "-" "+" 1 = "a+b-c"%string.
Proof. vm_compute. reflexivity. Qed.
Example Replace_ex2 : gostrings.Replace "a-b-c" "-" "+" (-1) = "a+b+c"%string.
Proof. vm_compute. reflexivity. Qed.
Example Replace_ex3 : gostrings.Replace "abc" EmptyString "+" (-1) = "+a+b+c+"%string.
Proof. vm_compute. reflexivity. Qed.
Example Replace_ex4 : gostrings.Replace "abc" EmptyString "+" 2 = "+a+bc"%string.
Proof. vm_compute. reflexivity. Qed.
Example ContainsAny_ex : gostrings.ContainsAny "a/b" "\/:" = true.
Proof. vm_compute. reflexivity. Qed.

(** ** Running the program symbolically *)

Ltac unfold_program :=
  cbv beta iota delta
    [mbind M_bind mret M_ret orReturn orReturnWhen os_call os_ReadFile
     execCommand call emit Printf Println Fatalf ReadString].

Ltac simpl_world := cbn [os stdin version events fst snd].

(** Name the answer of the next call. *)
Ltac next_call :=
  match goal with
  | |- context [sys ?c ?s] =>
      let r := fresh "r" in
      let s' := fresh "s" in
      let E := fresh "E" in
      destruct (sys c s) as [r s'] eqn:E; simpl_world
  end.

Lemma calls_app (a b : list Event) : calls (a ++ b) = calls a ++ calls b.
Proof. unfold calls. apply flat_map_app. Qed.

Lemma calls_snoc_called (a : list Event) c r :
  calls (a ++ [Called c r]) = calls a ++ [(c, r)].
Proof. rewrite calls_app. reflexivity. Qed.

Lemma calls_snoc_stdout (a : list Event) text :
  calls (a ++ [Stdout text]) = calls a.
Proof. rewrite calls_app. apply app_nil_r. Qed.

Lemma calls_snoc_stdin (a : list Event) line err :
  calls (a ++ [Stdin line err]) = calls a.
Proof. rewrite calls_app. apply app_nil_r. Qed.

Lemma calls_snoc_fatal (a : list Event) msg :
  calls (a ++ [Fatal msg]) = calls a.
Proof. rewrite calls_app. apply app_nil_r. Qed.

Ltac simpl_calls :=
  repeat first [ rewrite calls_snoc_called | rewrite calls_snoc_stdout
               | rewrite calls_snoc_stdin | rewrite calls_snoc_fatal ];
  rewrite <- ?app_assoc; cbn [app].

(** Close [answered] from the equations [next_call] left. *)
Ltac solve_answered :=
  repeat first [ apply answered_nil
               | eapply answered_cons; [eassumption|] ].

Section FailFastFacts.

(** The calls of a fail-fast run are the calls of the first steps. *)
Lemma FailFast_prefix steps t res :
  FailFast steps t res ->
  map fst t = take (length t) (map step_call steps).
Proof.
  induction 1 as [|st steps r t res Hok _ IH|st steps r err Herr]; cbn.
  - reflexivity.
  - now rewrite IH at 1.
  - now rewrite take_0.
Qed.

(** A run that returns no error ran every step, and every step succeeded. *)
Lemma FailFast_None steps t :
  FailFast steps t None ->
  Forall2 (fun st cr => step_call st = cr.1 /\ step_outcome st cr.2 = None)
          steps t.
Proof.
  intros Hff.
  enough (Hgen : forall res, FailFast steps t res -> res = None ->
            Forall2 (fun st cr => step_call st = cr.1 /\
                                  step_outcome st cr.2 = None) steps t)
    by exact (Hgen None Hff eq_refl).
  clear Hff. intros res Hff.
  induction Hff as [|st steps r t res Hok _ IH|st steps r err Herr];
    intros Hres.
  - constructor.
  - constructor; [split; [reflexivity|exact Hok]|apply IH, Hres].
  - discriminate.
Qed.

(** A run that returns an error stopped at the call that failed: it is the
    last call made, every call before it succeeded, and the error is the
    report of that step. *)
Lemma FailFast_Some steps t err :
  FailFast steps t (Some err) ->
  exists t0 r st,
    t = t0 ++ [(step_call st, r)] /\
    steps !! length t0 = Some st /\
    step_outcome st r = Some err /\
    Forall2 (fun st cr => step_call st = cr.1 /\ step_outcome st cr.2 = None)
            (take (length t0) steps) t0.
Proof.
  intros Hff. remember (Some err) as res eqn:Hres. revert err Hres.
  induction Hff as [|st steps r t res Hok _ IH|st steps r err' Herr];
    intros err Hres.
  - discriminate.
  - destruct (IH _ Hres) as (t0 & r0 & st0 & -> & Hst & Hout & Hall).
    exists ((step_call st, r) :: t0), r0, st0. cbn.
    repeat split; try assumption.
    constructor; [split; [reflexivity|assumption]|assumption].
  - injection Hres as ->. exists [], r, st. cbn.
    repeat split; [assumption|constructor].
Qed.

(** A failure ends the run: no call follows a call whose step failed. *)
Lemma FailFast_failure_is_last steps t res i st cr :
  FailFast steps t res ->
  steps !! i = Some st -> t !! i = Some cr ->
  step_outcome st cr.2 <> None ->
  length t = S i /\ res = step_outcome st cr.2.
Proof.
  intros Hff. revert i.
  induction Hff as [|st' steps r t res Hok _ IH|st' steps r err Herr];
    intros i Hst Ht Hfail.
  - discriminate.
  - destruct i as [|i]; cbn in *.
    + injection Hst as <-. injection Ht as <-. cbn in Hfail. congruence.
    + destruct (IH i Hst Ht Hfail) as [Hlen Hres]. split; [lia|assumption].
  - destruct i as [|i]; cbn in *.
    + injection Hst as <-. injection Ht as <-. cbn. split; [reflexivity|].
      now rewrite Herr.
    + discriminate.
Qed.

End FailFastFacts.

Section CommonFacts.
Context `{OS}.

(** [checkPrerequisites] is the fail-fast run of the three probes. *)
Lemma checkPrerequisites_run (cr : CommandRunner) (w : World) :
  exists t,
    events (checkPrerequisites cr w).2 =
      events w ++ map (fun cr => Called cr.1 cr.2) t /\
    stdin (checkPrerequisites cr w).2 = stdin w /\
    version (checkPrerequisites cr w).2 = version w /\
    answered (os w) t (os (checkPrerequisites cr w).2) /\
    FailFast (probes cr) t (checkPrerequisites cr w).1.
Proof.
  unfold checkPrerequisites, probes. unfold_program.
  next_call. destruct (err_of r) as [e1|] eqn:He1; simpl_world.
  { exists [(Exec "git" ["--version"], r)]. cbn.
    repeat split; [solve_answered|].
    apply (FailFast_stop (probe _ _)). cbn. now rewrite He1. }
  next_call. destruct (err_of r0) as [e2|] eqn:He2; simpl_world.
  { eexists [(_, r); (_, r0)]. cbn. rewrite <- app_assoc.
    repeat split; [solve_answered|].
    apply (FailFast_next (probe _ _)); [cbn; now rewrite He1|].
    apply (FailFast_stop (probe _ _)). cbn. now rewrite He2. }
  next_call. destruct (err_of r1) as [e3|] eqn:He3; simpl_world.
  { eexists [(_, r); (_, r0); (_, r1)]. cbn. rewrite <- !app_assoc.
    repeat split; [solve_answered|].
    apply (FailFast_next (probe _ _)); [cbn; now rewrite He1|].
    apply (FailFast_next (probe _ _)); [cbn; now rewrite He2|].
    apply (FailFast_stop (probe _ _)). cbn. now rewrite He3. }
  eexists [(_, r); (_, r0); (_, r1)]. cbn. rewrite <- !app_assoc.
  repeat split; [solve_answered|].
  apply (FailFast_next (probe _ _)); [cbn; now rewrite He1|].
  apply (FailFast_next (probe _ _)); [cbn; now rewrite He2|].
  apply (FailFast_next (probe _ _)); [cbn; now rewrite He3|].
  constructor.
Qed.

End CommonFacts.

Section Prober.
Context `{OS}.

(** C7.  [checkPrerequisites] (the same function in both revisions) probes
    git, then the hosting-platform CLI, then the package manager, each with
    [--version].  The run is one of four: the git probe fails, and the
    error names git, with no further probe; git passes and the gh probe
    fails, and the error names the GitHub CLI, with no npm probe; git and gh
    pass and the npm probe fails, and the error names npm; or all three
    probes pass, the only case in which the result is [nil].  The calls
    listed are all the function does, and their answers are the operating
    system's. *)
Theorem checkPrerequisites_fail_fast (cr : CommandRunner) (w : World) :
  let git := Exec "git" ["--version"] in
  let gh := Exec (getGHCommand cr) ["--version"] in
  let npm := Exec (getNPMCommand cr) ["--version"] in
  let result := (checkPrerequisites cr w).1 in
  let w' := (checkPrerequisites cr w).2 in
  exists t,
    events w' = events w ++ map (fun cr => Called cr.1 cr.2) t /\
    stdin w' = stdin w /\
    answered (os w) t (os w') /\
    ((exists r1,
        t = [(git, r1)] /\ err_of r1 <> None /\
        result = Some (errorString "git is not installed or not in PATH")) \/
     (exists r1 r2,
        t = [(git, r1); (gh, r2)] /\ err_of r1 = None /\ err_of r2 <> None /\
        result = Some (errorString
                         "GitHub CLI (gh) is not installed or not in PATH")) \/
     (exists r1 r2 r3,
        t = [(git, r1); (gh, r2); (npm, r3)] /\
        err_of r1 = None /\ err_of r2 = None /\ err_of r3 <> None /\
        result = Some (errorString "npm is not installed or not in PATH")) \/
     (exists r1 r2 r3,
        t = [(git, r1); (gh, r2); (npm, r3)] /\
        err_of r1 = None /\ err_of r2 = None /\ err_of r3 = None /\
        result = None)).
Proof.
  intros git gh npm result w'.
  destruct (checkPrerequisites_run cr w) as (t & Hev & Hin & _ & Hans & Hff).
  exists t. repeat split; try assumption.
  fold result in Hff. clear Hev Hin Hans. revert Hff.
  generalize result. clear result. intros result Hff.
  unfold probes in Hff.
  inversion Hff as [|st steps r1 t1 res Hok1 Hff1|st steps r1 err Herr1]; subst;
    cbn in *.
  2:{ left. exists r1. destruct (err_of r1); [|discriminate].
      injection Herr1 as <-. repeat split. discriminate. }
  right. destruct (err_of r1) eqn:He1; [discriminate|].
  inversion Hff1 as [|st steps r2 t2 res Hok2 Hff2|st steps r2 err Herr2]; subst;
    cbn in *.
  2:{ left. exists r1, r2. destruct (err_of r2); [|discriminate].
      injection Herr2 as <-. repeat split; [assumption|discriminate]. }
  right. destruct (err_of r2) eqn:He2; [discriminate|].
  inversion Hff2 as [|st steps r3 t3 res Hok3 Hff3|st steps r3 err Herr3]; subst;
    cbn in *.
  2:{ left. exists r1, r2, r3. destruct (err_of r3); [|discriminate].
      injection Herr3 as <-. repeat split; try assumption. discriminate. }
  right. destruct (err_of r3) eqn:He3; [discriminate|].
  inversion Hff3; subst. exists r1, r2, r3. repeat split; assumption.
Qed.

End Prober.

Section SkipSetup.
Context `{OS}.

Lemma interactions_app (a b : list Event) :
  interactions (a ++ b) = interactions a ++ interactions b.
Proof. unfold interactions. apply List.filter_app. Qed.

Lemma calls_called (t : list (Syscall * Resp)) :
  calls (map (fun cr => Called cr.1 cr.2) t) = t.
Proof.
  induction t as [|[c r] t IH]; cbn; [reflexivity|f_equal; exact IH].
Qed.

Lemma interactions_called (t : list (Syscall * Resp)) :
  interactions (map (fun cr => Called cr.1 cr.2) t) = [].
Proof. induction t as [|[c r] t IH]; cbn; [reflexivity|exact IH]. Qed.

(** C8 (amended).  With [--skip-setup] the earlier revision never prompts
    (nothing is printed to or read from the terminal) and never runs
    [createProject]: every call it makes is one of the three [--version]
    probes or [npm run dev].  The prerequisite check still comes first: if
    it fails the process ends there with the prerequisite error, and only
    when it has passed is the next and last call [npm run dev], after which
    the process exits (status 0, or 1 with a message when the development
    server command failed). *)
Theorem skip_setup_runs_dev_server_after_probes (w : World) :
  let cr := NewCommandRunner in
  let dev := Exec (getNPMCommand cr) ["run"; "dev"] in
  let pre := checkPrerequisites cr w in
  let run := Launcher.main true w in
  stdin run.2 = stdin w /\
  interactions (events run.2) = interactions (events w) /\
  exists t,
    events pre.2 = events w ++ map (fun cr => Called cr.1 cr.2) t /\
    FailFast (probes cr) t pre.1 /\
    match pre.1 with
    | Some err =>
        calls (events run.2) = calls (events w) ++ t /\
        events run.2 =
          events pre.2 ++ [Fatal ("Prerequisite check failed: " +:+ Error err)] /\
        run.1 = 1
    | None =>
        exists r,
          sys dev (os pre.2) = (r, os run.2) /\
          calls (events run.2) = calls (events w) ++ t ++ [(dev, r)] /\
          match err_of r with
          | Some err =>
              events run.2 =
                events pre.2 ++
                [Called dev r;
                 Fatal ("Failed to start development server: " +:+ Error err)] /\
              run.1 = 1
          | None =>
              events run.2 = events pre.2 ++ [Called dev r] /\ run.1 = 0
          end
    end.
Proof.
  intros cr dev pre run.
  destruct (checkPrerequisites_run cr w) as (t & Hev & Hin & _ & _ & Hff).
  fold pre in Hev, Hin, Hff.
  assert (Hcalls : calls (events pre.2) = calls (events w) ++ t).
  { now rewrite Hev, calls_app, calls_called. }
  assert (Hint : interactions (events pre.2) = interactions (events w)).
  { now rewrite Hev, interactions_app, interactions_called, app_nil_r. }
  subst run. unfold Launcher.main, Launcher.startDevServer.
  fold cr. unfold_program. fold pre. fold dev.
  destruct pre as [[err|] w1]; simpl_world; cbn [fst snd] in *.
  - repeat split; try assumption.
    + now rewrite interactions_app, Hint, app_nil_r.
    + exists t. repeat split; try assumption. now simpl_calls.
  - destruct (sys dev (os w1)) as [r s] eqn:E.
    destruct (err_of r) as [err|] eqn:He; simpl_world.
    + repeat split; try assumption.
      * rewrite <- app_assoc, interactions_app, Hint. cbn. apply app_nil_r.
      * exists t. repeat split; try assumption. exists r. rewrite He.
        repeat split; [simpl_calls; now rewrite Hcalls, <- app_assoc
                      |now rewrite <- app_assoc].
    + repeat split; try assumption.
      * rewrite interactions_app, Hint. cbn. apply app_nil_r.
      * exists t. repeat split; try assumption. exists r. rewrite He.
        repeat split. simpl_calls. now rewrite Hcalls, <- app_assoc.
Qed.

End SkipSetup.

Section Existence.
Context `{OS}.

Lemma alreadyExists_not_Errorf path prefix err c rest :
  prefix = String c rest -> c <> "d"%char ->
  alreadyExists path <> Errorf prefix err.
Proof.
  intros -> Hc Heq. apply (f_equal Error) in Heq. cbn in Heq.
  injection Heq as Heq _. congruence.
Qed.

(** The steps of the earlier revision's [createProject] after its
    existence check never report a collision. *)
Lemma Launcher_createProject_tail_no_collision cr projectName path (w : World) :
  let tail : M (option error) :=
    Printf ("Creating new WebApp: " +:+ projectName +:+ nl) ;;
    check execCommand cr (getGHCommand cr) ["repo"; "clone"; repoURL; projectName]
    else return Errorf "failed to clone repository: ";
    check os_call (Chdir path)
    else return Errorf "failed to change to project directory: ";
    Println "Installing dependencies..." ;;
    check execCommand cr (getNPMCommand cr) ["install"]
    else return Errorf "failed to install dependencies: ";
    mret None in
  (tail w).1 <> Some (alreadyExists path).
Proof.
  intros tail. subst tail. unfold_program. simpl_world.
  next_call. destruct (err_of r); simpl_world.
  { intros Heq. apply (f_equal (fun o => default (errorString EmptyString) o)) in Heq.
    cbn [default] in Heq. symmetry in Heq.
    now apply (alreadyExists_not_Errorf _ _ _ "f"%char _ eq_refl) in Heq. }
  next_call. destruct (err_of r0); simpl_world.
  { intros Heq. apply (f_equal (fun o => default (errorString EmptyString) o)) in Heq.
    cbn [default] in Heq. symmetry in Heq.
    now apply (alreadyExists_not_Errorf _ _ _ "f"%char _ eq_refl) in Heq. }
  next_call. destruct (err_of r1); simpl_world.
  { intros Heq. apply (f_equal (fun o => default (errorString EmptyString) o)) in Heq.
    cbn [default] in Heq. symmetry in Heq.
    now apply (alreadyExists_not_Errorf _ _ _ "f"%char _ eq_refl) in Heq. }
  discriminate.
Qed.

(** C9.  In both revisions the existence check reports a collision exactly
    when the error of [os.Stat] is not a "not found" error.  In main.go,
    [isProjectExists name] makes the one call [os.Stat] on the target path
    and returns the negation of [os.IsNotExist] of its error.  In the
    earlier revision, once [filepath.Abs] has given the path, [createProject]
    stops right after [os.Stat] with "directory ... already exists" when the
    error is not "not found", and does not report a collision otherwise; so
    does [createProject] of main.go once the parent directory is ensured.
    [os.IsNotExist] is false of a stat that succeeded, whatever it found (a
    directory or a regular file), and of any error that is not a "not found"
    error (permission denied): all of these count as a collision. *)
Theorem stat_decides_collision (cr : CommandRunner) (name : string) (w : World) :
  (let path := Join [Scaffold.projectsDir; Scaffold.webappsDir; name] in
   let '(r, s) := sys (Stat path) (os w) in
   Scaffold.isProjectExists name w =
     (negb (IsNotExist (err_of r)),
      {| os := s; stdin := stdin w; version := version w;
         events := events w ++ [Called (Stat path) r] |})) /\
  (let '(ra, sa) := sys (Abs name) (os w) in
   let path := data_of ra in
   let '(r, s) := sys (Stat path) sa in
   match err_of ra with
   | Some err =>
       (Launcher.createProject cr name w).1 =
         Some (Errorf "failed to get absolute path: " err)
   | None =>
       if IsNotExist (err_of r) then
         (Launcher.createProject cr name w).1 <> Some (alreadyExists path)
       else
         Launcher.createProject cr name w =
           (Some (alreadyExists path),
            {| os := s; stdin := stdin w; version := version w;
               events := events w ++ [Called (Abs name) ra;
                                      Called (Stat path) r] |})
   end) /\
  (let parent := Join [Scaffold.projectsDir; Scaffold.webappsDir] in
   let target := Join [Scaffold.projectsDir; Scaffold.webappsDir; name] in
   let '(r0, s0) := sys (MkdirAll parent 493) (os w) in
   let '(r, s) := sys (Stat target) s0 in
   match err_of r0 with
   | Some _ => True
   | None =>
       if IsNotExist (err_of r) then True
       else
         Scaffold.createProject cr name w =
           (Some (alreadyExists (Join [parent; name])),
            {| os := s; stdin := stdin w; version := version w;
               events := events w ++ [Called (MkdirAll parent 493) r0;
                                      Called (Stat target) r] |})
   end) /\
  (forall fi : FileInfo, IsNotExist (err_of (Info (Some fi) None)) = false) /\
  (forall (fi : option FileInfo) (err : error),
     IsNotExist (err_of (Info fi (Some err))) = notExist err).
Proof.
  repeat split.
  - unfold Scaffold.isProjectExists. unfold_program.
    destruct (sys _ _) as [r s]. reflexivity.
  - destruct (sys (Abs name) (os w)) as [ra sa] eqn:Ea. cbv zeta.
    destruct (sys (Stat (data_of ra)) sa) as [r s] eqn:Es.
    unfold Launcher.createProject.
    cbv beta iota delta [mbind M_bind call]. rewrite Ea. simpl_world.
    destruct (err_of ra) as [err|]; [reflexivity|].
    cbv beta iota delta [mbind M_bind call]; simpl_world.
    rewrite Es. simpl_world.
    destruct (IsNotExist (err_of r)); cbn [negb].
    + apply Launcher_createProject_tail_no_collision.
    + rewrite <- app_assoc. reflexivity.
  - cbv zeta.
    destruct (sys (MkdirAll _ 493) (os w)) as [r0 s0] eqn:Em.
    destruct (sys (Stat _) s0) as [r s] eqn:Es.
    destruct (err_of r0) as [err|] eqn:He0; [exact I|].
    destruct (IsNotExist (err_of r)) eqn:Hne; [exact I|].
    unfold Scaffold.createProject, Scaffold.ensureWebappsDir,
      Scaffold.isProjectExists.
    unfold_program. rewrite Em. simpl_world. rewrite He0. simpl_world.
    rewrite Es. simpl_world. rewrite Hne. cbn [negb].
    rewrite <- app_assoc. reflexivity.
Qed.

End Existence.

Section Materializer.
Context `{OS}.

(** Side conditions on the outcome of a step, from the equations in the
    context. *)
Ltac solve_outcome :=
  cbn [step_outcome step_call plain probe option_map];
  repeat match goal with
         | Hq : err_of ?r = _ |- context [err_of ?r] => rewrite Hq
         | Hq : IsNotExist ?e = _ |- context [IsNotExist ?e] => rewrite Hq
         | Hq : notExist ?e = _ |- context [notExist ?e] => rewrite Hq
         end;
  cbn [option_map IsNotExist];
  repeat match goal with
         | Hq : notExist ?e = _ |- context [notExist ?e] => rewrite Hq
         end;
  reflexivity.

Ltac solve_FailFast :=
  repeat first
    [ apply FailFast_done
    | eapply FailFast_stop; solve_outcome
    | eapply FailFast_next; [solve_outcome|] ].

(** Close a branch of the run: the calls made, that the operating system
    answered them, and that they are a fail-fast run of the workflow. *)
Ltac solve_manifest :=
  cbn [In]; intros ? Hin;
  repeat (destruct Hin as [Hin|Hin];
          [first [discriminate Hin | injection Hin as <-; reflexivity]|]);
  destruct Hin.

Ltac close_run manifest :=
  exists manifest; eexists;
  split; [simpl_calls; reflexivity|];
  split; [solve_answered|];
  split; [unfold workflow; solve_FailFast|solve_manifest].

(** The answer of the next call, by whether it carries an error. *)
Ltac case_err :=
  match goal with
  | |- context [err_of ?r] =>
      let e := fresh "e" in
      let He := fresh "He" in
      destruct (err_of r) as [e|] eqn:He; simpl_world
  end.

(** The manifest of a branch is what [os.ReadFile] answered, if it was
    called at all. *)
Ltac close :=
  lazymatch goal with
  | Hq : sys (ReadFile _) _ = (?r, _) |- _ => close_run (data_of r)
  | _ => close_run EmptyString
  end.

Ltac plain_step := next_call; case_err; [solve [close]|].

(** [createProject] of main.go is a fail-fast run of the workflow. *)
Lemma createProject_run (cr : CommandRunner) (projectName : string) (w : World) :
  exists manifest t,
    calls (events (Scaffold.createProject cr projectName w).2) =
      calls (events w) ++ t /\
    answered (os w) t (os (Scaffold.createProject cr projectName w).2) /\
    FailFast (workflow cr projectName manifest) t
             (Scaffold.createProject cr projectName w).1 /\
    (forall r, In (ReadFile "package.json", r) t -> data_of r = manifest).
Proof.
  unfold Scaffold.createProject, Scaffold.ensureWebappsDir,
    Scaffold.isProjectExists, Scaffold.createProject_manifest.
  unfold_program. simpl_world.
  (* ensure the parent directory *)
  plain_step.
  (* re-verify that the target is absent *)
  next_call.
  match goal with
  | |- context [IsNotExist (err_of ?r)] =>
      destruct (IsNotExist (err_of r)) eqn:Hne; cbn [negb]; simpl_world
  end.
  2:{ close. }
  (* chdir, clone, chdir, remove .git, init, add, commit, remove node_modules *)
  do 8 plain_step.
  (* remove package-lock.json, unless it is not there *)
  next_call. case_err.
  { destruct (notExist e) eqn:Hn; cbn [IsNotExist negb]; rewrite ?Hn;
      cbn [negb]; simpl_world.
    2:{ close. }
    (* install, read, back up, write *)
    do 4 plain_step. close. }
  do 4 plain_step. close.
Qed.

(** The report of a failed step starts with the opening of that step and
    of no earlier one: the message tells which step failed. *)
Lemma workflow_report_identifies_step cr projectName manifest i st r err :
  workflow cr projectName manifest !! i = Some st ->
  step_outcome st r = Some err ->
  step_of_message (Error err) = Some i.
Proof.
  unfold workflow. intros Hst Hout.
  do 15 (destruct i as [|i];
         [ injection Hst as <-; cbn [step_outcome plain] in Hout;
           try (destruct (IsNotExist (err_of r)); [discriminate|]);
           try (destruct (err_of r) as [e|]; [|discriminate]);
           cbn [option_map] in Hout; injection Hout as <-; reflexivity
         | cbn [lookup list_lookup] in Hst ]).
  destruct i; discriminate.
Qed.

(** C3.  Every run of [createProject] of main.go is a fail-fast run of the
    workflow of §4.3: the calls it makes are, in order and with none left
    out, the calls of the first steps of the workflow; when a step fails
    (the check that the target is absent fails when [os.Stat] reports
    anything but "not found"; removing the lock file does not fail when it is
    not there) the failing call is the last call made, so that no later
    step runs and nothing is undone, and the result is the error of that
    step, whose message starts with the opening that belongs to that step
    alone; the result is [nil] only when all fifteen calls were made. *)
Theorem createProject_fail_fast (cr : CommandRunner) (projectName : string)
    (w : World) :
  let run := Scaffold.createProject cr projectName w in
  exists manifest t,
    let steps := workflow cr projectName manifest in
    calls (events run.2) = calls (events w) ++ t /\
    answered (os w) t (os run.2) /\
    FailFast steps t run.1 /\
    map fst t = take (length t) (map step_call steps) /\
    (forall i st cr,
       steps !! i = Some st -> t !! i = Some cr ->
       step_outcome st cr.2 <> None ->
       length t = S i /\ run.1 = step_outcome st cr.2) /\
    (run.1 = None -> length t = length steps) /\
    (forall i st r err,
       steps !! i = Some st -> step_outcome st r = Some err ->
       step_of_message (Error err) = Some i) /\
    (forall r, In (ReadFile "package.json", r) t -> data_of r = manifest).
Proof.
  intros run.
  destruct (createProject_run cr projectName w)
    as (manifest & t & Hcalls & Hans & Hff & Hdata).
  fold run in Hcalls, Hans, Hff.
  exists manifest, t. cbv zeta.
  split; [exact Hcalls|]. split; [exact Hans|]. split; [exact Hff|].
  split; [exact (FailFast_prefix _ _ _ Hff)|].
  split; [intros i st c; exact (FailFast_failure_is_last _ _ _ i st c Hff)|].
  split.
  { intros Hnone. rewrite Hnone in Hff.
    symmetry. exact (Forall2_length _ _ _ (FailFast_None _ _ Hff)). }
  split; [|exact Hdata].
  intros i st r err. apply workflow_report_identifies_step.
Qed.

End Materializer.

(** ** Facts about bytes and package unicode/utf8 *)
Section Utf8Facts.

Lemma b2z_range (c : ascii) : 0 <= b2z c < 256.
Proof.
  unfold b2z. pose proof (N_ascii_bounded c). lia.
Qed.

Lemma b2z_z2b (z : Z) : b2z (z2b z) = z mod 256.
Proof.
  unfold b2z, z2b, uint8. rewrite N_ascii_embedding.
  - rewrite Z2N.id; [reflexivity|]. apply Z.mod_pos_bound. lia.
  - assert (0 <= z mod 2 ^ 8 < 256) by (apply Z.mod_pos_bound; lia). lia.
Qed.

Lemma z2b_b2z (c : ascii) : z2b (b2z c) = c.
Proof.
  unfold z2b, b2z, uint8. pose proof (N_ascii_bounded c).
  rewrite Z.mod_small by lia. rewrite N2Z.id. apply ascii_N_embedding.
Qed.

Lemma b2z_inj (c d : ascii) : b2z c = b2z d -> c = d.
Proof. intros Heq. rewrite <- (z2b_b2z c), <- (z2b_b2z d). now rewrite Heq. Qed.

Lemma land_le_r (a b : Z) : 0 <= a -> 0 <= b -> Z.land a b <= b.
Proof.
  intros Ha Hb. rewrite <- (Z2N.id a), <- (Z2N.id b) by assumption.
  rewrite <- N2Z.inj_land. apply N2Z.inj_le, N.land_le_r.
Qed.

Lemma lor_lower_l (a b : Z) : 0 <= a -> 0 <= b -> a <= Z.lor a b.
Proof.
  intros Ha Hb. pose proof (Z.add_lor_land a b).
  pose proof (land_le_r a b Ha Hb). lia.
Qed.

Lemma lor_lower_r (a b : Z) : 0 <= a -> 0 <= b -> b <= Z.lor a b.
Proof. intros. rewrite Z.lor_comm. now apply lor_lower_l. Qed.

Lemma DecodeRuneInString_decode4 (s : bytes) :
  utf8.DecodeRuneInString s =
  decode4 (len s) (at_ s 0) (at_ s 1) (at_ s 2) (at_ s 3).
Proof. reflexivity. Qed.

Lemma first_class (b : Z) : FirstClass b (utf8.first b).
Proof.
  unfold utf8.first.
  repeat match goal with
         | |- context [?a <? ?c] => destruct (Z.ltb_spec a c)
         | |- context [?a =? ?c] => destruct (Z.eqb_spec a c)
         end;
    first [ apply First_as; lia | apply First_xx; lia | apply First_s1; lia
          | apply First_s2; lia | apply First_s3; lia | apply First_s4; lia
          | apply First_s5; lia | apply First_s6; lia | apply First_s7; lia ].
Qed.

(** Evaluate what depends only on the class of the first byte. *)
Ltac eval_class :=
  cbv zeta;
  repeat match goal with
         | |- context [utf8.as_ <=? ?x] =>
             let v := eval vm_compute in (utf8.as_ <=? x) in
             change (utf8.as_ <=? x) with v
         | |- context [Z.shiftr (int32 (Z.shiftl ?x 31)) 31] =>
             let v := eval vm_compute in (Z.shiftr (int32 (Z.shiftl x 31)) 31) in
             change (Z.shiftr (int32 (Z.shiftl x 31)) 31) with v
         | |- context [Z.land ?x 7] =>
             let v := eval vm_compute in (Z.land x 7) in
             change (Z.land x 7) with v
         | |- context [utf8.acceptRanges (Z.shiftr ?x 4)] =>
             let v := eval vm_compute in (utf8.acceptRanges (Z.shiftr x 4)) in
             change (utf8.acceptRanges (Z.shiftr x 4)) with v
         end;
  cbv iota; cbn [fst snd];
  change utf8.locb with 128; change utf8.hicb with 191.

Ltac case_bools :=
  repeat match goal with
         | |- context [?a <? ?c] => destruct (Z.ltb_spec a c)
         | |- context [?a <=? ?c] => destruct (Z.leb_spec a c)
         end;
  cbn [orb].

Lemma decode4_ascii (n s0 b1 b2 b3 : Z) :
  1 <= n -> 0 <= s0 < 0x80 ->
  decode4 n s0 b1 b2 b3 = (s0, 1).
Proof.
  intros Hn Hs. unfold decode4.
  destruct (Z.ltb_spec n 1); [lia|].
  destruct (first_class s0); try lia. eval_class.
  change (Z.lnot 0) with (-1). rewrite Z.land_m1_r.
  change (Z.land utf8.RuneError 0) with 0. now rewrite Z.lor_0_r.
Qed.

Lemma mask_mod (a : Z) (k : Z) (m : Z) :
  0 <= k -> m = Z.ones k -> Z.land a m = a mod 2 ^ k.
Proof. intros Hk ->. now apply Z.land_ones. Qed.

(** Rewrite the masks and shifts of the decoder as arithmetic. *)
Ltac arith_bits :=
  repeat first
    [ rewrite (mask_mod _ 6 utf8.maskx) by (try lia; reflexivity)
    | rewrite (mask_mod _ 5 utf8.mask2) by (try lia; reflexivity)
    | rewrite (mask_mod _ 4 utf8.mask3) by (try lia; reflexivity)
    | rewrite (mask_mod _ 3 utf8.mask4) by (try lia; reflexivity)
    | rewrite Z.shiftl_mul_pow2 by lia ].

Ltac nonneg :=
  repeat first
    [ lia
    | apply Z.lor_nonneg; split
    | apply Z.mul_nonneg_nonneg
    | apply Z.mod_pos_bound; lia
    | apply Z.pow_nonneg; lia ].

(** Replace a bitwise or by a number above both its sides. *)
Ltac bound_lor_of a b :=
  let Hl := fresh "Hl" in
  let Hr := fresh "Hr" in
  assert (Hl : 0 <= a) by nonneg;
  assert (Hr : 0 <= b) by nonneg;
  pose proof (lor_lower_l a b Hl Hr);
  pose proof (lor_lower_r a b Hl Hr);
  generalize dependent (Z.lor a b); intros.

Ltac bound_lor :=
  match goal with
  | |- context [Z.lor ?a ?b] => bound_lor_of a b
  | Hq : context [Z.lor ?a ?b] |- _ => bound_lor_of a b
  end.

Lemma decode4_high (n s0 b1 b2 b3 : Z) :
  1 <= n -> 0x80 <= s0 < 256 ->
  0 <= b1 -> 0 <= b2 -> 0 <= b3 ->
  0x80 <= (decode4 n s0 b1 b2 b3).1 /\
  1 <= (decode4 n s0 b1 b2 b3).2 <= n /\
  (decode4 n s0 b1 b2 b3).2 <= 4 /\
  (2 <= (decode4 n s0 b1 b2 b3).2 -> 0x80 <= b1) /\
  (3 <= (decode4 n s0 b1 b2 b3).2 -> 0x80 <= b2) /\
  (4 <= (decode4 n s0 b1 b2 b3).2 -> 0x80 <= b3).
Proof.
  intros Hn Hs H1 H2 H3. unfold decode4.
  destruct (Z.ltb_spec n 1); [lia|].
  destruct (first_class s0); try lia; eval_class; case_bools; cbn [fst snd];
    change utf8.RuneError with 65533;
    try (repeat split; lia).
  all: arith_bits.
  all: repeat split; try lia.
  all: change (Z.lnot (-1)) with 0; rewrite ?Z.land_0_r;
    change (Z.land 65533 (-1)) with 65533; rewrite ?Z.lor_0_l; try lia.
  all: repeat bound_lor.
  all: Z.div_mod_to_equations; lia.
Qed.

(** A rune of two bytes or more is decoded from those bytes alone. *)
Lemma decode4_ext (n n' s0 b1 b2 b3 b2' b3' r sz : Z) :
  n <= n' ->
  decode4 n s0 b1 b2 b3 = (r, sz) -> 2 <= sz ->
  (3 <= sz -> b2' = b2) -> (4 <= sz -> b3' = b3) ->
  decode4 n' s0 b1 b2' b3' = (r, sz).
Proof.
  intros Hn Hd. revert Hd. unfold decode4.
  destruct (Z.ltb_spec n 1); [intros [= <- <-]; lia|].
  destruct (Z.ltb_spec n' 1); [lia|].
  destruct (first_class s0); eval_class;
    try (intros [= <- <-]; lia);
    (lazymatch goal with
     | |- (if ?a <? ?k then _ else _) = _ -> _ =>
         destruct (Z.ltb_spec a k); [intros [= <- <-]; lia|];
         destruct (Z.ltb_spec n' k); [lia|]
     end);
    (lazymatch goal with
     | |- (if ?c then _ else _) = _ -> _ =>
         destruct c; [intros [= <- <-]; lia|]
     end);
    cbv iota; try (intros [= <- <-]; reflexivity);
    (destruct ((b2 <? 128) || (191 <? b2)) eqn:Hc2;
     [intros [= <- <-]; lia|]);
    cbv iota;
    try (intros [= <- <-] _ Hb2 _; rewrite Hb2, Hc2 by lia; reflexivity);
    (destruct ((b3 <? 128) || (191 <? b3)) eqn:Hc3;
     [intros [= <- <-]; lia|]);
    intros [= <- <-] _ Hb2 Hb3; rewrite Hb2, Hb3, Hc2, Hc3 by lia;
    reflexivity.
Qed.

Lemma at_app_l (p rest : bytes) (i : Z) :
  0 <= i < len p -> at_ (p ++ rest) i = at_ p i.
Proof.
  intros Hi. unfold at_, len in *. f_equal.
  apply app_nth1. lia.
Qed.

Lemma len_app (p rest : bytes) : len (p ++ rest) = len p + len rest.
Proof. unfold len. rewrite length_app. lia. Qed.

Lemma len_nonneg (s : bytes) : 0 <= len s.
Proof. unfold len. lia. Qed.

Lemma at_0 (c : ascii) (t : bytes) : at_ (c :: t) 0 = b2z c.
Proof. reflexivity. Qed.

Lemma DecodeRuneInString_ascii (c : ascii) (t : bytes) :
  b2z c < 0x80 -> utf8.DecodeRuneInString (c :: t) = (b2z c, 1).
Proof.
  intros Hc. rewrite DecodeRuneInString_decode4. apply decode4_ascii.
  - unfold len. cbn [length]. lia.
  - pose proof (b2z_range c). rewrite ?at_0. lia.
Qed.

Lemma DecodeRuneInString_size (s : bytes) :
  s <> [] ->
  1 <= (utf8.DecodeRuneInString s).2 <= len s.
Proof.
  destruct s as [|c t]; [congruence|]. intros _.
  destruct (Z.lt_ge_cases (b2z c) 0x80) as [Hlo|Hhi].
  - rewrite DecodeRuneInString_ascii by assumption. cbn [snd].
    unfold len. cbn [length]. lia.
  - rewrite DecodeRuneInString_decode4.
    pose proof (b2z_range c).
    apply decode4_high.
    + unfold len. cbn [length]. lia.
    + rewrite ?at_0. lia.
    + unfold at_. apply b2z_range.
    + unfold at_. apply b2z_range.
    + unfold at_. apply b2z_range.
Qed.

(** A rune that does not start with an ASCII byte is not an ASCII rune,
    and all its bytes are above ASCII. *)
Lemma DecodeRuneInString_high (c : ascii) (t : bytes) :
  0x80 <= b2z c ->
  0x80 <= (utf8.DecodeRuneInString (c :: t)).1 /\
  Forall (fun d => 0x80 <= b2z d)
         (upto (utf8.DecodeRuneInString (c :: t)).2 (c :: t)).
Proof.
  intros Hc. rewrite DecodeRuneInString_decode4.
  pose proof (b2z_range c) as Hr.
  assert (Hlen : 1 <= len (c :: t)) by (unfold len; cbn [length]; lia).
  destruct (decode4_high (len (c :: t)) (at_ (c :: t) 0) (at_ (c :: t) 1)
              (at_ (c :: t) 2) (at_ (c :: t) 3) Hlen)
    as (Hrune & Hsz & H4 & Hb1 & Hb2 & Hb3).
  { rewrite ?at_0. lia. }
  { unfold at_. apply b2z_range. }
  { unfold at_. apply b2z_range. }
  { unfold at_. apply b2z_range. }
  split; [exact Hrune|].
  set (sz := (decode4 _ _ _ _ _).2) in *.
  unfold upto. apply Forall_lookup. intros i d Hi.
  apply lookup_take_Some in Hi as [Hi Hlt].
  assert (Hd : d = nth i (c :: t) zero).
  { symmetry. apply nth_lookup_Some with (d := zero) in Hi. exact Hi. }
  assert (Hcases : i = 0%nat \/ i = 1%nat \/ i = 2%nat \/ i = 3%nat) by lia.
  destruct Hcases as [-> | [-> | [-> | ->]]]; subst d.
  - exact Hc.
  - apply Hb1. lia.
  - apply Hb2. lia.
  - apply Hb3. lia.
Qed.

Lemma DecodeRuneInString_ext (p rest : bytes) (r sz : Z) :
  utf8.DecodeRuneInString p = (r, sz) -> 2 <= sz ->
  utf8.DecodeRuneInString (p ++ rest) = (r, sz).
Proof.
  intros Hd Hsz. rewrite DecodeRuneInString_decode4 in *.
  assert (Hp : p <> []).
  { intros ->. cbn in Hd. injection Hd as <- <-. lia. }
  pose proof (DecodeRuneInString_size p Hp) as Hsize.
  rewrite DecodeRuneInString_decode4, Hd in Hsize. cbn [snd] in Hsize.
  pose proof (len_nonneg rest).
  rewrite !(at_app_l p rest) by lia.
  eapply decode4_ext; [|exact Hd|exact Hsz| |].
  - rewrite len_app. lia.
  - intros. apply at_app_l. lia.
  - intros. apply at_app_l. lia.
Qed.

End Utf8Facts.

Section RangeFacts.

Lemma range_loop_nil (fuel : nat) (i : Z) : utf8.range_loop fuel [] i = [].
Proof. destruct fuel; reflexivity. Qed.

Lemma range_loop_cons (fuel : nat) (c : ascii) (t : bytes) (i : Z) :
  utf8.range_loop (S fuel) (c :: t) i =
  (i, (utf8.DecodeRuneInString (c :: t)).1)
  :: utf8.range_loop fuel
       (from (utf8.DecodeRuneInString (c :: t)).2 (c :: t))
       (i + (utf8.DecodeRuneInString (c :: t)).2).
Proof.
  cbn [utf8.range_loop]. now destruct (utf8.DecodeRuneInString (c :: t)).
Qed.

Lemma length_from (k : Z) (s : bytes) :
  1 <= k -> s <> [] -> (length (from k s) < length s)%nat.
Proof.
  intros Hk Hs. unfold from. rewrite length_drop.
  destruct s; [congruence|]. cbn [length]. lia.
Qed.

(** Whether some rune of a string passes a test that is decided by the
    ASCII bytes. *)
Lemma range_loop_exists (g : Z -> bool) (h : ascii -> bool) :
  (forall c, b2z c < 0x80 -> g (b2z c) = h c) ->
  (forall r, 0x80 <= r -> g r = false) ->
  (forall c, 0x80 <= b2z c -> h c = false) ->
  forall (fuel : nat) (s : bytes) (i : Z),
    (length s <= fuel)%nat ->
    existsb (fun ir => g ir.2) (utf8.range_loop fuel s i) = existsb h s.
Proof.
  intros Hlow Hhigh Hh. induction fuel as [|fuel IH]; intros s i Hlen.
  { destruct s; [reflexivity|cbn in Hlen; lia]. }
  destruct s as [|c t]; [reflexivity|].
  rewrite range_loop_cons. cbn [existsb snd].
  destruct (Z.lt_ge_cases (b2z c) 0x80) as [Hc|Hc].
  - rewrite DecodeRuneInString_ascii by assumption. cbn [fst snd].
    rewrite Hlow by assumption. f_equal.
    change (from 1 (c :: t)) with t. apply IH. cbn in Hlen. lia.
  - destruct (DecodeRuneInString_high c t Hc) as [Hr Hbytes].
    pose proof (DecodeRuneInString_size (c :: t) ltac:(discriminate)) as Hsz.
    rewrite Hhigh by assumption. rewrite Hh by assumption. cbn [orb].
    rewrite IH.
    2:{ pose proof (length_from (utf8.DecodeRuneInString (c :: t)).2 (c :: t)
                      ltac:(lia) ltac:(discriminate)).
        cbn [length] in *. lia. }
    set (sz := (utf8.DecodeRuneInString (c :: t)).2) in *.
    unfold from.
    assert (Hnone : existsb h (take (Z.to_nat sz) (c :: t)) = false).
    { apply not_true_is_false. intros Hex.
      apply existsb_exists in Hex as (d & Hd & Hhd).
      unfold upto in Hbytes. rewrite Forall_forall in Hbytes.
      apply list_elem_of_In in Hd. specialize (Hbytes d Hd).
      rewrite Hh in Hhd by exact Hbytes. discriminate. }
    destruct (Z.to_nat sz) as [|k] eqn:Hk; [lia|].
    cbn [take existsb] in Hnone. apply orb_false_iff in Hnone as [_ Hnone].
    cbn [drop].
    rewrite <- (take_drop k t) at 2. rewrite existsb_app, Hnone. reflexivity.
Qed.

Lemma range_loop_indices (fuel : nat) (s : bytes) (i : Z) :
  0 <= i -> Forall (fun ir => 0 <= ir.1) (utf8.range_loop fuel s i).
Proof.
  revert s i. induction fuel as [|fuel IH]; intros s i Hi; [constructor|].
  destruct s as [|c t]; [constructor|].
  rewrite range_loop_cons. constructor; [exact Hi|].
  apply IH.
  pose proof (DecodeRuneInString_size (c :: t) ltac:(discriminate)). lia.
Qed.

Lemma indexFunc_in_true (rs : list (Z * Z)) (g : Z -> bool) :
  Forall (fun ir => 0 <= ir.1) rs ->
  (0 <=? gostrings.indexFunc_in rs g true) = existsb (fun ir => g ir.2) rs.
Proof.
  induction 1 as [|[i r] rs Hi _ IH]; [reflexivity|].
  cbn [gostrings.indexFunc_in existsb snd]. cbn [fst] in Hi.
  destruct (g r); cbn [Bool.eqb orb]; [now apply Z.leb_le|exact IH].
Qed.

Lemma IndexAny_ascii_found (s chars : bytes) (i : Z) :
  0 <= i ->
  (0 <=? gostrings.IndexAny_ascii s chars i) =
  existsb (gostrings.asciiSet_contains chars) s.
Proof.
  revert i. induction s as [|c s IH]; intros i Hi; [reflexivity|].
  cbn [gostrings.IndexAny_ascii existsb].
  destruct (gostrings.asciiSet_contains chars c); cbn [orb];
    [now apply Z.leb_le|apply IH; lia].
Qed.

Lemma IndexByte_found (s : bytes) (c : ascii) (i : Z) :
  0 <= i ->
  (0 <=? gostrings.Index_from s [c] i) = existsb (Ascii.eqb c) s.
Proof.
  revert i. induction s as [|d s IH]; intros i Hi; [reflexivity|].
  cbn [gostrings.Index_from gostrings.HasPrefix existsb].
  rewrite andb_true_r, (Ascii.eqb_sym d c).
  destruct (Ascii.eqb c d); cbn [orb]; [now apply Z.leb_le|apply IH; lia].
Qed.

(** A substring that starts above ASCII is not found in an ASCII string. *)
Lemma Index_from_high (s : bytes) (c : ascii) (t : bytes) (i : Z) :
  gostrings.isASCII s = true -> 0x80 <= b2z c ->
  gostrings.Index_from s (c :: t) i = -1.
Proof.
  intros Hs Hc. revert i.
  induction s as [|d s IH]; intros i; [reflexivity|].
  cbn [gostrings.isASCII forallb] in Hs.
  apply andb_true_iff in Hs as [Hd Hs]. apply Z.ltb_lt in Hd.
  cbn [gostrings.Index_from gostrings.HasPrefix].
  destruct (Ascii.eqb_spec d c) as [->|_]; [unfold utf8.RuneSelf in Hd; lia|].
  cbn [andb]. now apply IH.
Qed.

Lemma asciiSet_contains_high (chars : bytes) (c : ascii) :
  gostrings.isASCII chars = true -> 0x80 <= b2z c ->
  gostrings.asciiSet_contains chars c = false.
Proof.
  intros Hs Hc. unfold gostrings.asciiSet_contains.
  induction chars as [|d chars IH]; [reflexivity|].
  cbn [gostrings.isASCII forallb] in Hs.
  apply andb_true_iff in Hs as [Hd Hs]. apply Z.ltb_lt in Hd.
  cbn [existsb].
  destruct (Ascii.eqb_spec c d) as [->|_]; [unfold utf8.RuneSelf in Hd; lia|].
  now apply IH.
Qed.

Lemma testbit7 (v : Z) : 0 <= v -> Z.testbit v 7 = true -> 128 <= v.
Proof.
  intros Hv Hb. destruct (Z.lt_ge_cases v 128) as [Hlt|]; [|assumption].
  exfalso. destruct (Z.eq_dec v 0) as [->|Hne]; [discriminate|].
  rewrite Z.bits_above_log2 in Hb; [discriminate|lia|].
  apply Z.log2_lt_pow2; lia.
Qed.

(** The first byte of [t | x] for a marker [t] with bit 7. *)
Lemma marked_byte_high (t x : Z) :
  Z.testbit t 7 = true -> 0x80 <= b2z (z2b (Z.lor t x)).
Proof.
  intros Ht. rewrite b2z_z2b. apply testbit7.
  - apply Z.mod_pos_bound. lia.
  - change 256 with (2 ^ 8). rewrite Z.mod_pow2_bits_low by lia.
    now rewrite Z.lor_spec, Ht.
Qed.

(** The encoding of a rune above ASCII starts above ASCII. *)
Lemma AppendRune_high (r : Z) :
  0x80 <= r <= utf8.MaxRune ->
  exists c t, utf8.AppendRune r = c :: t /\ 0x80 <= b2z c.
Proof.
  intros Hr. unfold utf8.AppendRune, utf8.appendRuneNonASCII, uint32.
  unfold utf8.MaxRune in Hr.
  rewrite Z.mod_small by lia.
  change utf8.rune1Max with 127.
  destruct (Z.leb_spec r 127); [lia|].
  repeat match goal with
         | |- context [if ?b then _ else _] => destruct b
         end;
    eexists; eexists; (split; [reflexivity|]);
    now apply marked_byte_high.
Qed.

(** [ContainsAny] with an ASCII set of two or more characters: some byte
    of the string is in the set. *)
Lemma IndexAny_ascii_set (s chars : bytes) :
  (2 <= length chars)%nat ->
  gostrings.isASCII chars = true ->
  gostrings.indexFunc chars (fun r => r =? utf8.RuneError) true = -1 ->
  (0 <=? gostrings.IndexAny s chars) =
  existsb (gostrings.asciiSet_contains chars) s.
Proof.
  intros Hlen Hascii Herr. unfold gostrings.IndexAny.
  destruct chars as [|c1 [|c2 chars]]; [cbn in Hlen; lia|cbn in Hlen; lia|].
  rewrite Hascii, andb_true_r.
  destruct (8 <? len s); [apply IndexAny_ascii_found; lia|].
  unfold gostrings.indexFunc.
  rewrite indexFunc_in_true by (apply range_loop_indices; lia).
  unfold utf8.range.
  apply (range_loop_exists
           (fun r => 0 <=? gostrings.IndexRune (c1 :: c2 :: chars) r)
           (gostrings.asciiSet_contains (c1 :: c2 :: chars)));
    [| |intros c Hc; now apply asciiSet_contains_high|lia].
  - intros c Hc. unfold gostrings.IndexRune.
    pose proof (b2z_range c).
    replace ((0 <=? b2z c) && (b2z c <? utf8.RuneSelf)) with true
      by (symmetry; apply andb_true_iff; split;
          [apply Z.leb_le; lia|apply Z.ltb_lt; exact Hc]).
    unfold gostrings.IndexByte, gostrings.Index.
    rewrite z2b_b2z. apply IndexByte_found. lia.
  - intros r Hr. unfold gostrings.IndexRune.
    replace ((0 <=? r) && (r <? utf8.RuneSelf)) with false
      by (symmetry; apply andb_false_iff; right; apply Z.ltb_ge; exact Hr).
    destruct (r =? utf8.RuneError); [now rewrite Herr|].
    destruct (utf8.ValidRune r) eqn:Hv; cbn [negb]; [|reflexivity].
    assert (Hmax : r <= utf8.MaxRune).
    { unfold utf8.ValidRune in Hv.
      destruct ((0 <=? r) && (r <? utf8.surrogateMin)) eqn:H1.
      - apply andb_true_iff in H1 as [_ H1]. apply Z.ltb_lt in H1.
        unfold utf8.surrogateMin, utf8.MaxRune in *. lia.
      - destruct ((utf8.surrogateMax <? r) && (r <=? utf8.MaxRune)) eqn:H2;
          [|discriminate].
        apply andb_true_iff in H2 as [_ H2]. now apply Z.leb_le in H2. }
    destruct (AppendRune_high r (conj Hr Hmax)) as (c & t & -> & Hc).
    unfold gostrings.Index. now rewrite Index_from_high.
Qed.

End RangeFacts.

Section BlankFacts.

Lemma SpaceRune_cases (r : Z) : SpaceRune r -> In r spaceRunes.
Proof.
  intros [[Hlo Hhi] Hsp]. unfold utf8.MaxRune in Hhi.
  destruct (Z.le_gt_cases r 0x3000) as [Hsmall|Hbig].
  - assert (Hall : forallb (fun n => implb (unicode.IsSpace (Z.of_nat n))
                                 (existsb (Z.eqb (Z.of_nat n)) spaceRunes))
                     (seq 0 (Z.to_nat 12289)) = true) by (vm_compute; reflexivity).
    rewrite forallb_forall in Hall.
    specialize (Hall (Z.to_nat r)).
    rewrite Z2Nat.id, Hsp in Hall by lia. cbn [implb] in Hall.
    assert (Hin : In (Z.to_nat r) (seq 0 (Z.to_nat 12289))) by (apply in_seq; lia).
    apply Hall, existsb_exists in Hin as (x & Hx & Heq).
    apply Z.eqb_eq in Heq. now subst x.
  - exfalso. revert Hsp. unfold unicode.IsSpace, uint32.
    rewrite Z.mod_small by lia. unfold unicode.MaxLatin1.
    destruct (Z.leb_spec r 255); [lia|].
    unfold unicode.isExcludingLatin_White_Space. cbn [last unicode.White_Space_R16].
    change (last unicode.White_Space_R16) with (Some (0x3000, 0x3000, 1)).
    cbv iota beta.
    destruct (Z.leb_spec r 0x3000); [lia|]. rewrite andb_false_r. discriminate.
Qed.

(** How each white space rune is encoded and decoded. *)
Lemma SpaceRune_decodes (r : Z) (rest : bytes) :
  SpaceRune r ->
  exists c t,
    utf8.AppendRune r = c :: t /\
    utf8.DecodeRuneInString (utf8.AppendRune r ++ rest) =
      (r, len (utf8.AppendRune r)) /\
    ((b2z c < 0x80 /\ t = [] /\ gostrings.asciiSpace (b2z c) = true) \/
     0x80 <= b2z c).
Proof.
  intros Hr. apply SpaceRune_cases in Hr. unfold spaceRunes in Hr.
  cbn [In] in Hr.
  repeat (destruct Hr as [<-|Hr];
          [ eexists; eexists; split; [vm_compute; reflexivity|];
            split;
            [ first [ apply DecodeRuneInString_ascii; vm_compute; reflexivity
                    | apply DecodeRuneInString_ext; vm_compute;
                      [reflexivity|discriminate] ]
            | first [ left; vm_compute; repeat split; reflexivity
                    | right; vm_compute; discriminate ] ]
          | ]).
  destruct Hr.
Qed.

(** No rune of a blank text fails [unicode.IsSpace]. *)
Lemma indexFunc_blank (s : bytes) :
  blank_bytes s ->
  forall (fuel : nat) (i : Z),
    (length s <= fuel)%nat ->
    gostrings.indexFunc_in (utf8.range_loop fuel s i) unicode.IsSpace false = -1.
Proof.
  induction 1 as [|r s Hr Hs IH]; intros fuel i Hlen.
  - now rewrite range_loop_nil.
  - destruct (SpaceRune_decodes r s Hr) as (c & t & Henc & Hdec & _).
    destruct fuel as [|fuel]; [rewrite Henc in Hlen; cbn in Hlen; lia|].
    assert (Hcons : utf8.AppendRune r ++ s = c :: (t ++ s))
      by now rewrite Henc.
    rewrite Hcons in *. rewrite range_loop_cons, Hdec. cbn [fst snd].
    cbn [gostrings.indexFunc_in].
    destruct Hr as [_ ->]. cbn [Bool.eqb].
    rewrite <- Hcons. unfold from, len. rewrite Nat2Z.id, drop_app_length.
    apply IH. cbn [length] in Hlen. rewrite length_app in Hlen. lia.
Qed.

Lemma TrimRightFunc_nil (f : Z -> bool) : gostrings.TrimRightFunc [] f = [].
Proof. unfold gostrings.TrimRightFunc, upto. apply take_nil. Qed.

(** [TrimSpace] of a blank text is empty. *)
Lemma TrimSpace_bytes_blank (s : bytes) :
  blank_bytes s -> gostrings.TrimSpace_bytes s = [].
Proof.
  unfold gostrings.TrimSpace_bytes.
  induction 1 as [|r s Hr Hs IH]; [reflexivity|].
  destruct (SpaceRune_decodes r s Hr) as (c & t & Henc & Hdec & Hcase).
  assert (Hblank : blank_bytes (utf8.AppendRune r ++ s))
    by now constructor.
  rewrite Henc in *. cbn [app gostrings.TrimSpace_start].
  destruct Hcase as [(Hlow & -> & Hspace)|Hhigh].
  - destruct (Z.leb_spec utf8.RuneSelf (b2z c));
      [unfold utf8.RuneSelf in *; lia|].
    rewrite Hspace. cbn [negb app]. exact IH.
  - destruct (Z.leb_spec utf8.RuneSelf (b2z c));
      [|unfold utf8.RuneSelf in *; lia].
    unfold gostrings.TrimFunc, gostrings.TrimLeftFunc, gostrings.indexFunc,
      utf8.range.
    rewrite (indexFunc_blank _ Hblank) by (cbn [app length]; lia).
    cbn [Z.eqb]. apply TrimRightFunc_nil.
Qed.

Lemma TrimSpace_blank (s : string) :
  blank s -> gostrings.TrimSpace s = EmptyString.
Proof.
  intros Hs. unfold gostrings.TrimSpace.
  now rewrite TrimSpace_bytes_blank.
Qed.

End BlankFacts.

Section TrimFacts.

Lemma IsSpace_ascii (r : Z) :
  0 <= r < 0x80 -> unicode.IsSpace r = gostrings.asciiSpace r.
Proof.
  intros Hr. unfold unicode.IsSpace, gostrings.asciiSpace, uint32.
  rewrite Z.mod_small by lia. unfold unicode.MaxLatin1.
  destruct (Z.leb_spec r 255); [|lia].
  destruct (Z.eqb_spec r 133); [lia|]. destruct (Z.eqb_spec r 160); [lia|].
  now rewrite !orb_false_r.
Qed.

(** The bytes of a white space rune at the head of a string are
    trimmable. *)
Lemma space_rune_bytes_trimmable (c : ascii) (t : bytes) :
  unicode.IsSpace (utf8.DecodeRuneInString (c :: t)).1 = true ->
  Forall trimmable (upto (utf8.DecodeRuneInString (c :: t)).2 (c :: t)).
Proof.
  intros Hsp. destruct (Z.lt_ge_cases (b2z c) 0x80) as [Hc|Hc].
  - rewrite DecodeRuneInString_ascii in * by assumption. cbn [fst snd] in *.
    change (upto 1 (c :: t)) with [c]. constructor; [|constructor].
    left. pose proof (b2z_range c). rewrite <- IsSpace_ascii by lia. exact Hsp.
  - destruct (DecodeRuneInString_high c t Hc) as [_ Hbytes].
    eapply Forall_impl; [exact Hbytes|]. intros d Hd. now right.
Qed.

Lemma from_from (a b : Z) (s : bytes) :
  0 <= a -> 0 <= b -> from b (from a s) = from (a + b) s.
Proof.
  intros Ha Hb. unfold from. rewrite drop_drop. f_equal. lia.
Qed.

(** [indexFunc] with [unicode.IsSpace]: what lies before the index it
    returns is trimmable. *)
Lemma indexFunc_in_trimmable (fuel : nat) (s : bytes) (i : Z) :
  (length s <= fuel)%nat ->
  let j := gostrings.indexFunc_in (utf8.range_loop fuel s i)
             unicode.IsSpace false in
  (j = -1 /\ Forall trimmable s) \/
  (exists k : nat, j = i + Z.of_nat k /\ (k <= length s)%nat /\
                   Forall trimmable (take k s)).
Proof.
  revert s i. induction fuel as [|fuel IH]; intros s i Hlen; cbv zeta.
  { destruct s; [|cbn in Hlen; lia]. left. split; [reflexivity|constructor]. }
  destruct s as [|c t].
  { left. split; [reflexivity|constructor]. }
  rewrite range_loop_cons. cbn [gostrings.indexFunc_in].
  destruct (unicode.IsSpace (utf8.DecodeRuneInString (c :: t)).1) eqn:Hsp;
    cbn [Bool.eqb].
  2:{ right. exists 0%nat. repeat split; [lia|lia|constructor]. }
  pose proof (space_rune_bytes_trimmable c t Hsp) as Hhead.
  pose proof (DecodeRuneInString_size (c :: t) ltac:(discriminate)) as Hsz.
  set (sz := (utf8.DecodeRuneInString (c :: t)).2) in *.
  assert (Hshort : (length (from sz (c :: t)) <= fuel)%nat).
  { pose proof (length_from sz (c :: t) ltac:(lia) ltac:(discriminate)).
    cbn [length] in *. lia. }
  destruct (IH (from sz (c :: t)) (i + sz) Hshort)
    as [[Hj Hall]|(k & Hj & Hk & Hall)].
  - left. split; [exact Hj|].
    rewrite <- (take_drop (Z.to_nat sz) (c :: t)).
    apply Forall_app. split; [exact Hhead|exact Hall].
  - right. exists (Z.to_nat sz + k)%nat. repeat split.
    + rewrite Hj. lia.
    + unfold from in Hk. rewrite length_drop in Hk. unfold len in Hsz. lia.
    + rewrite <- take_take_drop.
      apply Forall_app. split; [exact Hhead|exact Hall].
Qed.

Lemma TrimLeftFunc_trimmable (s : bytes) :
  exists k : nat,
    (k <= length s)%nat /\
    gostrings.TrimLeftFunc s unicode.IsSpace = drop k s /\
    Forall trimmable (take k s).
Proof.
  unfold gostrings.TrimLeftFunc, gostrings.indexFunc, utf8.range.
  destruct (indexFunc_in_trimmable (length s) s 0 (le_n _))
    as [[Hj Hall]|(k & Hj & Hk & Hall)]; rewrite Hj.
  - exists (length s). cbn [Z.eqb].
    repeat split; [lia|now rewrite drop_all|now rewrite firstn_all].
  - exists k. destruct (Z.eqb_spec (0 + Z.of_nat k) (-1)); [lia|].
    repeat split; [exact Hk| |exact Hall].
    unfold from. f_equal. lia.
Qed.

Lemma scanBack_le (fuel : nat) (s : bytes) (start lim : Z) :
  utf8.scanBack fuel s start lim <= start.
Proof.
  revert start. induction fuel as [|fuel IH]; intros start; cbn; [lia|].
  destruct (start >=? lim); [|lia].
  destruct (utf8.RuneStart (at_ s start)); [lia|].
  specialize (IH (start - 1)). lia.
Qed.

Lemma from_last (s : bytes) :
  s <> [] -> from (len s - 1) s = [nth (Z.to_nat (len s - 1)) s zero].
Proof.
  intros Hs. unfold from, len.
  destruct (exists_last Hs) as (t & c & ->).
  rewrite length_app. cbn [length].
  replace (Z.to_nat (Z.of_nat (length t + 1) - 1)) with (length t) by lia.
  rewrite drop_app_length. now rewrite app_nth2, Nat.sub_diag by lia.
Qed.

Lemma upto_all (n : Z) (s : bytes) : len s <= n -> upto n s = s.
Proof. intros Hn. unfold upto, len in *. apply take_ge. lia. Qed.

Lemma len_from (k : Z) (s : bytes) :
  0 <= k <= len s -> len (from k s) = len s - k.
Proof. intros Hk. unfold len, from in *. rewrite length_drop. lia. Qed.

(** [DecodeLastRuneInString]: the rune it returns spans the last [size]
    bytes; when the rune is white space those bytes are trimmable, and
    when it is wider than a byte it is the rune [DecodeRuneInString] reads
    there. *)
Lemma DecodeLastRuneInString_spec (s : bytes) :
  s <> [] ->
  1 <= (utf8.DecodeLastRuneInString s).2 <= len s /\
  (unicode.IsSpace (utf8.DecodeLastRuneInString s).1 = true ->
   Forall trimmable (from (len s - (utf8.DecodeLastRuneInString s).2) s)) /\
  (2 <= (utf8.DecodeLastRuneInString s).2 ->
   utf8.DecodeRuneInString (from (len s - (utf8.DecodeLastRuneInString s).2) s)
   = utf8.DecodeLastRuneInString s).
Proof.
  intros Hs. unfold utf8.DecodeLastRuneInString.
  assert (Hlen : 1 <= len s).
  { unfold len. destruct s; [congruence|cbn [length]; lia]. }
  destruct (Z.eqb_spec (len s) 0); [lia|].
  destruct (Z.ltb_spec (at_ s (len s - 1)) utf8.RuneSelf) as [Hlow|Hhigh].
  { cbn [fst snd]. split; [lia|]. split; [|lia].
    intros Hsp. rewrite from_last by assumption.
    constructor; [|constructor]. left.
    unfold at_ in *. pose proof (b2z_range (nth (Z.to_nat (len s - 1)) s zero)).
    rewrite <- IsSpace_ascii; [exact Hsp|unfold utf8.RuneSelf in Hlow; lia]. }
  set (lim := if len s - utf8.UTFMax <? 0 then 0 else len s - utf8.UTFMax).
  pose proof (scanBack_le 4 s (len s - 1 - 1) lim) as Hscan.
  set (start0 := utf8.scanBack 4 s (len s - 1 - 1) lim) in *.
  set (start := if start0 <? 0 then 0 else start0).
  assert (Hstart : 0 <= start <= len s - 1).
  { subst start. destruct (Z.ltb_spec start0 0); lia. }
  rewrite (upto_all (len s) (from start s))
    by (rewrite len_from by lia; lia).
  assert (Hne : from start s <> []).
  { intros Hnil. apply (f_equal len) in Hnil.
    rewrite len_from in Hnil by lia. unfold len in Hnil at 2. cbn in Hnil. lia. }
  pose proof (DecodeRuneInString_size (from start s) Hne) as Hsize.
  rewrite len_from in Hsize by lia.
  destruct (utf8.DecodeRuneInString (from start s)) as [r size] eqn:Hd.
  cbn [snd] in Hsize.
  destruct (Z.eqb_spec (start + size) (len s)) as [Hend|Hend]; cbn [negb fst snd].
  2:{ split; [lia|]. split; [discriminate|lia]. }
  replace (len s - size) with start by lia.
  split; [lia|]. split; [|intros _; exact Hd].
  intros Hsp. destruct (from start s) as [|c t] eqn:Hfrom; [congruence|].
  assert (Hc : 0x80 <= b2z c).
  { destruct (Z.lt_ge_cases (b2z c) 0x80) as [Hc|Hc]; [|exact Hc]. exfalso.
    rewrite DecodeRuneInString_ascii in Hd by assumption.
    injection Hd as <- <-.
    assert (Hstart1 : start = len s - 1) by lia.
    rewrite Hstart1, from_last in Hfrom by assumption.
    injection Hfrom as Hc' _. unfold at_ in Hhigh. rewrite Hc' in Hhigh.
    unfold utf8.RuneSelf in Hhigh. lia. }
  destruct (DecodeRuneInString_high c t Hc) as [_ Hbytes].
  rewrite Hd in Hbytes. cbn [snd] in Hbytes.
  rewrite upto_all in Hbytes.
  2:{ apply (f_equal len) in Hfrom. rewrite len_from in Hfrom by lia. lia. }
  eapply Forall_impl; [exact Hbytes|]. intros d Hd'. now right.
Qed.

Lemma len_upto (k : Z) (s : bytes) :
  0 <= k <= len s -> len (upto k s) = k.
Proof. intros Hk. unfold len, upto in *. rewrite length_take. lia. Qed.

Lemma from_upto (j b : Z) (s : bytes) :
  0 <= j <= b -> b <= len s ->
  from j s = from j (upto b s) ++ from b s.
Proof.
  intros Hj Hb. unfold from, upto, len in *.
  rewrite <- (take_drop (Z.to_nat b) s) at 1.
  apply drop_app_le. rewrite length_take. lia.
Qed.

Lemma Forall_from_mono (P : ascii -> Prop) (a b : Z) (s : bytes) :
  0 <= a <= b -> Forall P (from a s) -> Forall P (from b s).
Proof.
  intros Hab Hall. unfold from in *.
  replace (Z.to_nat b) with (Z.to_nat a + Z.to_nat (b - a))%nat by lia.
  rewrite <- drop_drop. now apply Forall_drop.
Qed.

(** The loop of [lastIndexFunc] with [unicode.IsSpace]: either every rune
    is white space, or it stops at the last rune that is not, with only
    trimmable bytes behind that rune. *)
Lemma lastIndexFunc_loop_trimmable (fuel : nat) (s : bytes) (i : Z) :
  0 <= i <= len s -> (Z.to_nat i <= fuel)%nat ->
  Forall trimmable (from i s) ->
  let j := gostrings.lastIndexFunc_loop fuel s i unicode.IsSpace false in
  (j = -1 /\ Forall trimmable s) \/
  (exists b,
     0 <= j < b /\ b <= len s /\ Forall trimmable (from b s) /\
     j = b - (utf8.DecodeLastRuneInString (upto b s)).2 /\
     (2 <= b - j ->
      (utf8.DecodeRuneInString (from j (upto b s))).2 = b - j)).
Proof.
  revert i. induction fuel as [|fuel IH]; intros i Hi Hfuel Hall; cbv zeta.
  { left. split; [reflexivity|]. replace i with 0 in Hall by lia. exact Hall. }
  cbn [gostrings.lastIndexFunc_loop].
  destruct (Z.ltb_spec 0 i) as [Hpos|Hzero].
  2:{ left. split; [reflexivity|]. replace i with 0 in Hall by lia. exact Hall. }
  assert (Hne : upto i s <> []).
  { intros Hnil. apply (f_equal len) in Hnil. rewrite len_upto in Hnil by lia.
    change (len []) with 0 in Hnil. lia. }
  destruct (DecodeLastRuneInString_spec (upto i s) Hne) as (Hsz & Hspace & Hwide).
  rewrite len_upto in * by lia.
  destruct (utf8.DecodeLastRuneInString (upto i s)) as [r size] eqn:Hd.
  cbn [fst snd] in *.
  destruct (unicode.IsSpace r) eqn:Hsp; cbn [Bool.eqb].
  - specialize (Hspace eq_refl).
    apply (IH (i - size)); [lia|lia|].
    rewrite (from_upto (i - size) i s) by lia.
    apply Forall_app. split; [exact Hspace|exact Hall].
  - right. exists i. rewrite Hd. cbn [snd].
    repeat split; try lia; [exact Hall|].
    intros Hw. replace (i - (i - size)) with size in * by lia.
    rewrite Hwide by lia. reflexivity.
Qed.

(** [TrimRightFunc] with [unicode.IsSpace] removes trimmable bytes only. *)
Lemma TrimRightFunc_trimmable (s : bytes) :
  exists k : nat,
    gostrings.TrimRightFunc s unicode.IsSpace = take k s /\
    Forall trimmable (drop k s).
Proof.
  unfold gostrings.TrimRightFunc, gostrings.lastIndexFunc.
  destruct (lastIndexFunc_loop_trimmable (length s) s (len s))
    as [[Hj Hall]|(b & Hj & Hb & Hall & Hsize & Hwide)].
  { pose proof (len_nonneg s). lia. }
  { unfold len. lia. }
  { unfold from, len. rewrite Nat2Z.id, drop_all. constructor. }
  - rewrite Hj. cbn [Z.leb andb Z.add]. exists 0%nat. split; [reflexivity|].
    exact Hall.
  - set (j := gostrings.lastIndexFunc_loop (length s) s (len s)
                unicode.IsSpace false) in *.
    eexists. split; [reflexivity|].
    apply (Forall_from_mono _ b); [|exact Hall].
    destruct (Z.leb_spec 0 j); [|lia]. cbn [andb].
    assert (Hne : from j s <> []).
    { intros Hnil. apply (f_equal len) in Hnil.
      rewrite len_from in Hnil by lia. change (len []) with 0 in Hnil. lia. }
    pose proof (DecodeRuneInString_size (from j s) Hne) as Hwid.
    destruct (Z.le_gt_cases 2 (b - j)) as [Hw|Hw].
    + (* the rune found is wider than a byte *)
      specialize (Hwide Hw).
      destruct (utf8.DecodeRuneInString (from j (upto b s))) as [r sz] eqn:Hd.
      cbn [snd] in Hwide. subst sz.
      pose proof (DecodeRuneInString_ext _ (from b s) _ _ Hd Hw) as Hext.
      rewrite <- from_upto in Hext by lia.
      assert (Hhigh : utf8.RuneSelf <= at_ s j).
      { destruct (Z.lt_ge_cases (at_ s j) utf8.RuneSelf) as [Hlo|]; [|assumption].
        exfalso. destruct (from j s) as [|c t] eqn:Hfrom; [congruence|].
        assert (Hc : at_ s j = b2z c).
        { unfold at_, from in *. rewrite <- (take_drop (Z.to_nat j) s) at 1.
          rewrite app_nth2 by (rewrite length_take; unfold len in *; lia).
          rewrite length_take, Hfrom.
          replace (Z.to_nat j - Z.to_nat j `min` length s)%nat with 0%nat
            by (unfold len in *; lia).
          reflexivity. }
        rewrite DecodeRuneInString_ascii in Hext
          by (unfold utf8.RuneSelf in *; lia).
        injection Hext as _ Hone. lia. }
      destruct (Z.leb_spec utf8.RuneSelf (at_ s j)); [|lia].
      rewrite Hext. cbn [snd]. lia.
    + (* a rune of one byte *)
      destruct (utf8.RuneSelf <=? at_ s j); lia.
Qed.

Lemma from_pred (stop : Z) (s : bytes) :
  0 < stop <= len s ->
  from (stop - 1) s = nth (Z.to_nat (stop - 1)) s zero :: from stop s.
Proof.
  intros Hstop. unfold from, len in *.
  replace (Z.to_nat stop) with (S (Z.to_nat (stop - 1))) by lia.
  apply drop_S.
  destruct (nth_lookup_or_length s (Z.to_nat (stop - 1)) zero) as [Hnth|Hge];
    [exact Hnth|lia].
Qed.

(** The second loop of [TrimSpace] removes trimmable bytes only. *)
Lemma TrimSpace_stop_trimmable (fuel : nat) (s : bytes) (stop : Z) :
  0 <= stop <= len s -> Forall trimmable (from stop s) ->
  exists k : nat,
    gostrings.TrimSpace_stop fuel s stop = take k s /\
    Forall trimmable (drop k s).
Proof.
  revert stop. induction fuel as [|fuel IH]; intros stop Hstop Hall.
  { exists (Z.to_nat stop). split; [reflexivity|exact Hall]. }
  cbn [gostrings.TrimSpace_stop].
  destruct (Z.ltb_spec 0 stop) as [Hpos|Hzero].
  2:{ exists (Z.to_nat stop). split; [reflexivity|exact Hall]. }
  destruct (Z.leb_spec utf8.RuneSelf (at_ s (stop - 1))) as [Hhigh|Hlow].
  { destruct (TrimRightFunc_trimmable (upto stop s)) as (k & -> & Hk).
    exists (k `min` Z.to_nat stop)%nat. unfold upto in *. split.
    - apply take_take.
    - destruct (Nat.le_gt_cases k (Z.to_nat stop)) as [Hle|Hgt].
      + rewrite Nat.min_l by assumption.
        rewrite <- (take_drop (Z.to_nat stop) s) at 1.
        rewrite drop_app_le by (rewrite length_take; unfold len in *; lia).
        apply Forall_app. split; [exact Hk|exact Hall].
      + rewrite Nat.min_r by lia. exact Hall. }
  destruct (gostrings.asciiSpace (at_ s (stop - 1))) eqn:Hsp; cbn [negb].
  2:{ exists (Z.to_nat stop). split; [reflexivity|exact Hall]. }
  apply IH; [lia|].
  rewrite from_pred by lia. constructor; [|exact Hall]. now left.
Qed.

(** [TrimSpace] keeps a piece of its argument, and what it removes on
    either side is trimmable. *)
Lemma TrimSpace_start_trimmable (s : bytes) :
  exists n k : nat,
    gostrings.TrimSpace_start s = take k (drop n s) /\
    Forall trimmable (take n s) /\
    Forall trimmable (drop k (drop n s)).
Proof.
  induction s as [|c s IH].
  { exists 0%nat, 0%nat. repeat split; constructor. }
  cbn [gostrings.TrimSpace_start].
  destruct (Z.leb_spec utf8.RuneSelf (b2z c)) as [Hhigh|Hlow].
  { unfold gostrings.TrimFunc.
    destruct (TrimLeftFunc_trimmable (c :: s)) as (n & _ & -> & Hn).
    destruct (TrimRightFunc_trimmable (drop n (c :: s))) as (k & -> & Hk).
    now exists n, k. }
  destruct (gostrings.asciiSpace (b2z c)) eqn:Hsp; cbn [negb].
  2:{ destruct (TrimSpace_stop_trimmable (length (c :: s)) (c :: s)
                  (len (c :: s))) as (k & -> & Hk).
      - pose proof (len_nonneg (c :: s)). lia.
      - unfold from, len. rewrite Nat2Z.id, drop_all. constructor.
      - exists 0%nat, k. repeat split; [constructor|exact Hk]. }
  destruct IH as (n & k & -> & Hn & Hk).
  exists (S n), k. repeat split; [|exact Hk].
  cbn [take]. constructor; [now left|exact Hn].
Qed.

(** A byte that is not trimmable stays. *)
Lemma TrimSpace_bytes_keeps (s : bytes) (c : ascii) :
  In c s -> ~ trimmable c -> In c (gostrings.TrimSpace_bytes s).
Proof.
  intros Hin Hc. unfold gostrings.TrimSpace_bytes.
  destruct (TrimSpace_start_trimmable s) as (n & k & -> & Hn & Hk).
  rewrite <- (take_drop n s) in Hin. apply in_app_or in Hin as [Hin|Hin].
  { rewrite Forall_forall in Hn. apply list_elem_of_In in Hin.
    now apply Hn in Hin. }
  rewrite <- (take_drop k (drop n s)) in Hin.
  apply in_app_or in Hin as [Hin|Hin]; [exact Hin|].
  rewrite Forall_forall in Hk. apply list_elem_of_In in Hin.
  now apply Hk in Hin.
Qed.

(** What [TrimSpace] returns is part of its argument. *)
Lemma TrimSpace_bytes_incl (s : bytes) (c : ascii) :
  In c (gostrings.TrimSpace_bytes s) -> In c s.
Proof.
  unfold gostrings.TrimSpace_bytes.
  destruct (TrimSpace_start_trimmable s) as (n & k & -> & _ & _).
  intros Hin. apply list_elem_of_In in Hin.
  apply list_elem_of_In.
  apply elem_of_take in Hin as (i & Hi & _).
  rewrite lookup_drop in Hi. apply list_elem_of_lookup. now exists (n + i)%nat.
Qed.

End TrimFacts.

(** ** Facts about package strings *)
Section ReplaceFacts.

Lemma HasPrefix_true (s p : bytes) :
  gostrings.HasPrefix s p = true <-> exists t, s = p ++ t.
Proof.
  revert s. induction p as [|a p IH]; intros s; cbn.
  - split; [intros _; now exists s|reflexivity].
  - destruct s as [|c s]; cbn.
    + split; [discriminate|intros [t [=]]].
    + rewrite andb_true_iff, Ascii.eqb_eq, IH. split.
      * intros [-> [t ->]]. now exists t.
      * intros [t [= -> ->]]. split; [reflexivity|now exists t].
Qed.

(** [Index_from] finds the first suffix that starts with [sub]. *)
Lemma Index_from_spec (s sub : bytes) (i : Z) :
  (gostrings.Index_from s sub i = -1 /\
   forall k : nat, gostrings.HasPrefix (drop k s) sub = false) \/
  (exists k : nat,
     gostrings.Index_from s sub i = i + Z.of_nat k /\
     (k <= length s)%nat /\
     gostrings.HasPrefix (drop k s) sub = true /\
     forall k' : nat, (k' < k)%nat -> gostrings.HasPrefix (drop k' s) sub = false).
Proof.
  revert i. induction s as [|c s IH]; intros i.
  - cbn [gostrings.Index_from].
    destruct (gostrings.HasPrefix [] sub) eqn:Hp.
    + right. exists 0%nat. repeat split; [lia|reflexivity|exact Hp|lia].
    + left. split; [reflexivity|]. intros k. now rewrite drop_nil.
  - cbn [gostrings.Index_from].
    destruct (gostrings.HasPrefix (c :: s) sub) eqn:Hp.
    + right. exists 0%nat. repeat split; [lia|cbn; lia|exact Hp|lia].
    + destruct (IH (i + 1)) as [[Hm Hno]|(k & Hk & Hle & Hyes & Hno)].
      * left. split; [exact Hm|]. intros [|k]; [exact Hp|apply Hno].
      * right. exists (S k). repeat split.
        -- rewrite Hk. lia.
        -- cbn. lia.
        -- exact Hyes.
        -- intros [|k'] Hlt; [exact Hp|apply Hno; lia].
Qed.

Lemma Index_range (s sub : bytes) :
  gostrings.Index s sub = -1 \/ 0 <= gostrings.Index s sub.
Proof.
  unfold gostrings.Index.
  destruct (Index_from_spec s sub 0) as [[-> _]|(k & -> & _)]; [now left|right; lia].
Qed.

(** A substring that is found is found at its first occurrence. *)
Lemma Index_found (s sub : bytes) :
  0 <= gostrings.Index s sub ->
  exists pre post,
    s = pre ++ sub ++ post /\
    gostrings.Index s sub = len pre /\
    forall pre' post', s = pre' ++ sub ++ post' ->
                       (length pre <= length pre')%nat.
Proof.
  unfold gostrings.Index. intros Hge.
  destruct (Index_from_spec s sub 0) as [[Hm _]|(k & Hk & Hle & Hyes & Hno)];
    [lia|].
  apply HasPrefix_true in Hyes as [post Hpost].
  exists (take k s), post. repeat split.
  - rewrite <- Hpost. symmetry. apply take_drop.
  - rewrite Hk. unfold len. rewrite length_take. lia.
  - intros pre' post' Heq. rewrite length_take.
    destruct (Nat.le_gt_cases k (length pre')) as [Hc|Hc]; [lia|].
    specialize (Hno (length pre') Hc).
    assert (Hp : gostrings.HasPrefix (drop (length pre') s) sub = true).
    { apply HasPrefix_true. exists post'. rewrite Heq.
      now rewrite drop_app_length. }
    congruence.
Qed.

(** A substring that is not found does not occur. *)
Lemma Index_absent (s sub : bytes) :
  gostrings.Index s sub = -1 ->
  forall pre post, s <> pre ++ sub ++ post.
Proof.
  unfold gostrings.Index. intros Hm pre post Heq.
  destruct (Index_from_spec s sub 0) as [[_ Hno]|(k & Hk & _)]; [|lia].
  specialize (Hno (length pre)).
  assert (Hp : gostrings.HasPrefix (drop (length pre) s) sub = true).
  { apply HasPrefix_true. exists post. rewrite Heq.
    now rewrite drop_app_length. }
  congruence.
Qed.

Lemma Count_loop_ge (fuel : nat) (s sub : bytes) (n : Z) :
  n <= gostrings.Count_loop fuel s sub n.
Proof.
  revert s n. induction fuel as [|fuel IH]; intros s n; cbn; [lia|].
  destruct (gostrings.Index s sub =? -1); [lia|].
  specialize (IH (from (gostrings.Index s sub + len sub) s) (n + 1)). lia.
Qed.

(** For a substring that is not empty, [Count] is zero exactly when
    [Index] finds nothing. *)
Lemma Count_zero (s sub : bytes) :
  sub <> [] ->
  (gostrings.Count s sub = 0 <-> gostrings.Index s sub = -1).
Proof.
  intros Hsub. unfold gostrings.Count.
  assert (Hlen : (len sub =? 0) = false).
  { apply Z.eqb_neq. unfold len. destruct sub; [congruence|cbn; lia]. }
  rewrite Hlen. split.
  - intros Hc. destruct (Index_range s sub) as [Hm|Hge]; [exact Hm|].
    exfalso. destruct (Index_found s sub Hge) as (pre & post & Heq & Hi & _).
    destruct s as [|c s].
    { destruct pre; [destruct sub; [congruence|discriminate]|discriminate]. }
    cbn [length gostrings.Count_loop] in Hc.
    destruct (gostrings.Index (c :: s) sub =? -1) eqn:Hq;
      [apply Z.eqb_eq in Hq; lia|].
    pose proof (Count_loop_ge (length s)
                  (from (gostrings.Index (c :: s) sub + len sub) (c :: s))
                  sub (0 + 1)). lia.
  - intros Hm. destruct (length s); cbn; [reflexivity|].
    now rewrite Hm.
Qed.

(** [Replace(s, old, new, 1)] exchanges the first occurrence of [old]. *)
Lemma Replace_bytes_first (s old new : bytes) :
  old <> [] -> old <> new ->
  0 <= gostrings.Index s old ->
  exists pre post,
    s = pre ++ old ++ post /\
    gostrings.Replace_bytes s old new 1 = pre ++ new ++ post /\
    forall pre' post', s = pre' ++ old ++ post' ->
                       (length pre <= length pre')%nat.
Proof.
  intros Hold Hne Hge.
  destruct (Index_found s old Hge) as (pre & post & Heq & Hi & Hmin).
  exists pre, post. repeat split; [exact Heq| |exact Hmin].
  unfold gostrings.Replace_bytes.
  rewrite bool_decide_eq_false_2 by exact Hne. cbn [orb Z.eqb].
  destruct (gostrings.Count s old =? 0) eqn:Hc.
  { apply Z.eqb_eq, Count_zero in Hc; [lia|exact Hold]. }
  apply Z.eqb_neq in Hc.
  assert (Hpos : 1 <= gostrings.Count s old).
  { unfold gostrings.Count in *.
    destruct (len old =? 0).
    - unfold utf8.RuneCountInString in *. lia.
    - pose proof (Count_loop_ge (length s) s old 0). lia. }
  replace (gostrings.Count s old <? 1) with false by (symmetry; apply Z.ltb_ge; lia).
  change ((1 <? 0) || false) with false. cbv iota.
  change (Z.to_nat 1) with 1%nat. cbn [gostrings.Replace_loop].
  assert (Hlen : (len old =? 0) = false).
  { apply Z.eqb_neq. unfold len. destruct old; [congruence|cbn; lia]. }
  rewrite Hlen, Hi.
  unfold upto, from, len. rewrite Nat2Z.id.
  replace (Z.to_nat (Z.of_nat (length pre) + Z.of_nat (length old)))
    with (length pre + length old)%nat by lia.
  rewrite Heq at 1 2.
  rewrite take_app_length. f_equal. f_equal.
  rewrite app_assoc, <- length_app. apply drop_app_length.
Qed.

(** [Replace] leaves a string without [old] as it is. *)
Lemma Replace_bytes_absent (s old new : bytes) (n : Z) :
  old <> [] ->
  gostrings.Index s old = -1 ->
  gostrings.Replace_bytes s old new n = s.
Proof.
  intros Hold Hm. unfold gostrings.Replace_bytes.
  destruct (bool_decide (old = new) || (n =? 0)); [reflexivity|].
  apply (Count_zero s old Hold) in Hm. now rewrite Hm.
Qed.

Lemma list_ascii_of_string_app (a b : string) :
  list_ascii_of_string (a +:+ b) =
  list_ascii_of_string a ++ list_ascii_of_string b.
Proof.
  induction a as [|c a IH]; [reflexivity|].
  change (c :: list_ascii_of_string (a +:+ b) =
          c :: (list_ascii_of_string a ++ list_ascii_of_string b)).
  now rewrite IH.
Qed.

Lemma string_of_list_ascii_app (a b : bytes) :
  string_of_list_ascii (a ++ b) =
  string_of_list_ascii a +:+ string_of_list_ascii b.
Proof.
  induction a as [|c a IH]; [reflexivity|].
  change (String c (string_of_list_ascii (a ++ b)) =
          String c (string_of_list_ascii a +:+ string_of_list_ascii b)).
  now rewrite IH.
Qed.

Lemma length_list_ascii_of_string (a : string) :
  length (list_ascii_of_string a) = String.length a.
Proof. induction a as [|c a IH]; cbn; [reflexivity|f_equal; exact IH]. Qed.

(** The two lemmas on strings. *)
Lemma Replace_first (s old new : string) :
  old <> EmptyString -> old <> new ->
  gostrings.Contains s old = true ->
  exists pre post,
    s = pre +:+ old +:+ post /\
    gostrings.Replace s old new 1 = pre +:+ new +:+ post /\
    forall pre' post', s = pre' +:+ old +:+ post' ->
                       (String.length pre <= String.length pre')%nat.
Proof.
  intros Hold Hne Hc. unfold gostrings.Contains, gostrings.Contains_bytes in Hc.
  apply Z.leb_le in Hc.
  destruct (Replace_bytes_first (list_ascii_of_string s)
              (list_ascii_of_string old) (list_ascii_of_string new))
    as (pre & post & Heq & Hrep & Hmin); [| |exact Hc|].
  { intros Hnil. apply Hold.
    rewrite <- (string_of_list_ascii_of_string old). now rewrite Hnil. }
  { intros Heq. apply Hne.
    rewrite <- (string_of_list_ascii_of_string old),
            <- (string_of_list_ascii_of_string new). now rewrite Heq. }
  exists (string_of_list_ascii pre), (string_of_list_ascii post).
  repeat split.
  - rewrite <- (string_of_list_ascii_of_string s), Heq.
    rewrite !string_of_list_ascii_app.
    now rewrite string_of_list_ascii_of_string.
  - unfold gostrings.Replace. rewrite Hrep.
    rewrite !string_of_list_ascii_app.
    now rewrite string_of_list_ascii_of_string.
  - intros pre' post' Heq'.
    rewrite <- length_list_ascii_of_string,
            list_ascii_of_string_of_list_ascii.
    rewrite <- length_list_ascii_of_string.
    apply (Hmin _ (list_ascii_of_string post')).
    now rewrite Heq', !list_ascii_of_string_app.
Qed.

Lemma Replace_absent (s old new : string) (n : Z) :
  old <> EmptyString ->
  gostrings.Contains s old = false ->
  gostrings.Replace s old new n = s /\
  forall pre post, s <> pre +:+ old +:+ post.
Proof.
  intros Hold Hc. unfold gostrings.Contains, gostrings.Contains_bytes in Hc.
  apply Z.leb_gt in Hc.
  assert (Hm : gostrings.Index (list_ascii_of_string s)
                 (list_ascii_of_string old) = -1).
  { destruct (Index_range (list_ascii_of_string s) (list_ascii_of_string old));
      [assumption|lia]. }
  assert (Hold' : list_ascii_of_string old <> []).
  { intros Hnil. apply Hold.
    rewrite <- (string_of_list_ascii_of_string old). now rewrite Hnil. }
  split.
  - unfold gostrings.Replace. rewrite Replace_bytes_absent by assumption.
    apply string_of_list_ascii_of_string.
  - intros pre post Heq.
    apply (Index_absent _ _ Hm (list_ascii_of_string pre)
             (list_ascii_of_string post)).
    now rewrite Heq, !list_ascii_of_string_app.
Qed.

End ReplaceFacts.

(** ** The manifest *)
Section Manifest.
Context `{OS}.

Lemma predevLine_not_empty : Scaffold.predevLine <> EmptyString.
Proof. discriminate. Qed.

Lemma predevLine_not_placeholder :
  Scaffold.predevLine <> Scaffold.predevPlaceholder.
Proof. intros Heq. vm_compute in Heq. discriminate. Qed.

(** The three calls of the manifest block, and where each way out of it
    leaves the run. *)
Lemma createProject_manifest_run (w : World) :
  let run := Scaffold.createProject_manifest w in
  exists r1 s1,
    sys (ReadFile "package.json") (os w) = (r1, s1) /\
    match err_of r1 with
    | Some err =>
        run.1 = Some (Errorf "failed to read package.json: " err) /\
        os run.2 = s1 /\
        calls (events run.2) = calls (events w) ++ [(ReadFile "package.json", r1)]
    | None =>
        let original := data_of r1 in
        let patched :=
          gostrings.Replace original Scaffold.predevLine
            Scaffold.predevPlaceholder 1 in
        exists r2 s2,
          sys (WriteFile "package.json.backup" original 420) s1 = (r2, s2) /\
          match err_of r2 with
          | Some err =>
              run.1 = Some (Errorf "failed to create package.json backup: " err) /\
              os run.2 = s2 /\
              calls (events run.2) =
                calls (events w) ++
                [(ReadFile "package.json", r1);
                 (WriteFile "package.json.backup" original 420, r2)]
          | None =>
              exists r3 s3,
                sys (WriteFile "package.json" patched 420) s2 = (r3, s3) /\
                run.1 = option_map
                          (Errorf "failed to write modified package.json: ")
                          (err_of r3) /\
                os run.2 = s3 /\
                calls (events run.2) =
                  calls (events w) ++
                  [(ReadFile "package.json", r1);
                   (WriteFile "package.json.backup" original 420, r2);
                   (WriteFile "package.json" patched 420, r3)]
          end
    end.
Proof.
  unfold Scaffold.createProject_manifest. unfold_program. simpl_world.
  next_call. exists r, s. split; [reflexivity|].
  destruct (err_of r) as [e|] eqn:He; simpl_world.
  { repeat split. now simpl_calls. }
  next_call. exists r0, s0. split; [reflexivity|].
  destruct (err_of r0) as [e|] eqn:He0; simpl_world.
  { repeat split. now simpl_calls. }
  next_call. exists r1, s1. split; [reflexivity|].
  destruct (err_of r1) as [e|] eqn:He1; simpl_world.
  - repeat split. now simpl_calls.
  - repeat split. now simpl_calls.
Qed.

End Manifest.

Section ManifestFiles.
Context `{FileStore}.

Lemma backup_is_another_file :
  ("package.json.backup" : string) <> "package.json".
Proof. discriminate. Qed.

(** What a completed manifest block leaves on disk. *)
Lemma createProject_manifest_completed (w : World) (content : string) :
  file (os w) "package.json" = Some content ->
  (Scaffold.createProject_manifest w).1 = None ->
  let w' := (Scaffold.createProject_manifest w).2 in
  let patched :=
    gostrings.Replace content Scaffold.predevLine Scaffold.predevPlaceholder 1 in
  file (os w') "package.json" = Some patched /\
  file (os w') "package.json.backup" = Some content /\
  exists r1 r2 r3,
    calls (events w') =
      calls (events w) ++
      [(ReadFile "package.json", r1);
       (WriteFile "package.json.backup" content 420, r2);
       (WriteFile "package.json" patched 420, r3)].
Proof.
  intros Hfile Hdone. cbv zeta.
  destruct (createProject_manifest_run w) as (r1 & s1 & E1 & Hrun).
  destruct (ReadFile_content _ _ _ _ E1) as [Hsame1 Hread].
  destruct (err_of r1) as [e|]; [destruct Hrun as [Hres _]; congruence|].
  specialize (Hread eq_refl). rewrite Hfile in Hread.
  injection Hread as Hcontent. cbv zeta in Hrun. rewrite <- Hcontent in Hrun.
  destruct Hrun as (r2 & s2 & E2 & Hrun).
  destruct (WriteFile_content _ _ _ _ _ _ E2) as [Hframe2 Hwrote2].
  destruct (err_of r2) as [e|]; [destruct Hrun as [Hres _]; congruence|].
  destruct Hrun as (r3 & s3 & E3 & Hres & Hos & Hcalls).
  destruct (WriteFile_content _ _ _ _ _ _ E3) as [Hframe3 Hwrote3].
  destruct (err_of r3) as [e|]; [rewrite Hdone in Hres; discriminate|].
  rewrite Hos. repeat split.
  - now apply Hwrote3.
  - rewrite Hframe3 by exact backup_is_another_file. now apply Hwrote2.
  - now exists r1, r2, r3.
Qed.

(** C1.  When the manifest holds the known predev line and the manifest
    block of [createProject] completes, package.json holds the original
    with the first occurrence of that line exchanged for the placeholder
    (what stands before and after it is kept byte for byte), and
    package.json.backup holds the original; these are the contents that were
    written, the backup first. *)
Theorem manifest_patch_exchanges_predev_line (w : World) (content : string) :
  file (os w) "package.json" = Some content ->
  gostrings.Contains content Scaffold.predevLine = true ->
  (Scaffold.createProject_manifest w).1 = None ->
  let w' := (Scaffold.createProject_manifest w).2 in
  exists pre post,
    content = pre +:+ Scaffold.predevLine +:+ post /\
    (forall pre' post',
       content = pre' +:+ Scaffold.predevLine +:+ post' ->
       (String.length pre <= String.length pre')%nat) /\
    file (os w') "package.json" =
      Some (pre +:+ Scaffold.predevPlaceholder +:+ post) /\
    file (os w') "package.json.backup" = Some content /\
    exists r1 r2 r3,
      calls (events w') =
        calls (events w) ++
        [(ReadFile "package.json", r1);
         (WriteFile "package.json.backup" content 420, r2);
         (WriteFile "package.json"
            (pre +:+ Scaffold.predevPlaceholder +:+ post) 420, r3)].
Proof.
  intros Hfile Hcontains Hdone w'.
  destruct (Replace_first content Scaffold.predevLine Scaffold.predevPlaceholder
              predevLine_not_empty predevLine_not_placeholder Hcontains)
    as (pre & post & Heq & Hrep & Hmin).
  destruct (createProject_manifest_completed w content Hfile Hdone)
    as (Hpj & Hbk & Hcalls).
  rewrite Hrep in Hpj, Hcalls.
  exists pre, post. repeat split; assumption.
Qed.

(** C2.  When the manifest does not hold the predev line and the manifest
    block completes, package.json is written back with the content it had
    (the substitution changes nothing), and package.json.backup is written
    all the same, with that content. *)
Theorem manifest_patch_without_predev_line (w : World) (content : string) :
  file (os w) "package.json" = Some content ->
  gostrings.Contains content Scaffold.predevLine = false ->
  (Scaffold.createProject_manifest w).1 = None ->
  let w' := (Scaffold.createProject_manifest w).2 in
  (forall pre post, content <> pre +:+ Scaffold.predevLine +:+ post) /\
  gostrings.Replace content Scaffold.predevLine Scaffold.predevPlaceholder 1 =
    content /\
  file (os w') "package.json" = Some content /\
  file (os w') "package.json.backup" = Some content /\
  exists r1 r2 r3,
    calls (events w') =
      calls (events w) ++
      [(ReadFile "package.json", r1);
       (WriteFile "package.json.backup" content 420, r2);
       (WriteFile "package.json" content 420, r3)].
Proof.
  intros Hfile Hcontains Hdone w'.
  destruct (Replace_absent content Scaffold.predevLine
              Scaffold.predevPlaceholder 1 predevLine_not_empty Hcontains)
    as [Hrep Habsent].
  destruct (createProject_manifest_completed w content Hfile Hdone)
    as (Hpj & Hbk & Hcalls).
  rewrite Hrep in Hpj, Hcalls.
  repeat split; assumption.
Qed.

(** C10.  The manifest block reads package.json, then writes the backup,
    then overwrites package.json, and goes from one to the next only on
    success.  If the read fails, or the backup cannot be written, the block
    returns the error of that step and package.json is as it was: no write
    to it is attempted.  Once the backup has been written, it holds the
    original content, both before the overwrite of package.json (when
    package.json is still untouched) and after it, whether the overwrite
    succeeded or not. *)
Theorem backup_written_before_overwrite (w : World) :
  let run := Scaffold.createProject_manifest w in
  let before := file (os w) "package.json" in
  exists r1 s1,
    sys (ReadFile "package.json") (os w) = (r1, s1) /\
    match err_of r1 with
    | Some err =>
        run.1 = Some (Errorf "failed to read package.json: " err) /\
        calls (events run.2) =
          calls (events w) ++ [(ReadFile "package.json", r1)] /\
        file (os run.2) "package.json" = before
    | None =>
        let original := data_of r1 in
        let patched :=
          gostrings.Replace original Scaffold.predevLine
            Scaffold.predevPlaceholder 1 in
        before = Some original /\
        exists r2 s2,
          sys (WriteFile "package.json.backup" original 420) s1 = (r2, s2) /\
          file s2 "package.json" = before /\
          match err_of r2 with
          | Some err =>
              run.1 = Some (Errorf "failed to create package.json backup: " err) /\
              calls (events run.2) =
                calls (events w) ++
                [(ReadFile "package.json", r1);
                 (WriteFile "package.json.backup" original 420, r2)] /\
              file (os run.2) "package.json" = before
          | None =>
              file s2 "package.json.backup" = Some original /\
              exists r3,
                sys (WriteFile "package.json" patched 420) s2 = (r3, os run.2) /\
                calls (events run.2) =
                  calls (events w) ++
                  [(ReadFile "package.json", r1);
                   (WriteFile "package.json.backup" original 420, r2);
                   (WriteFile "package.json" patched 420, r3)] /\
                file (os run.2) "package.json.backup" = Some original /\
                run.1 = option_map
                          (Errorf "failed to write modified package.json: ")
                          (err_of r3)
          end
    end.
Proof.
  intros run before.
  destruct (createProject_manifest_run w) as (r1 & s1 & E1 & Hrun).
  fold run in Hrun. exists r1, s1. split; [exact E1|].
  destruct (ReadFile_content _ _ _ _ E1) as [Hsame1 Hread].
  destruct (err_of r1) as [e|].
  { destruct Hrun as (Hres & Hos & Hcalls). repeat split; try assumption.
    rewrite Hos. apply Hsame1. }
  cbv zeta in *. specialize (Hread eq_refl).
  split; [exact Hread|].
  destruct Hrun as (r2 & s2 & E2 & Hrun). exists r2, s2.
  split; [exact E2|].
  destruct (WriteFile_content _ _ _ _ _ _ E2) as [Hframe2 Hwrote2].
  assert (Hkept : file s2 "package.json" = before).
  { rewrite Hframe2; [apply Hsame1|].
    intros Heq. symmetry in Heq. now apply backup_is_another_file in Heq. }
  split; [exact Hkept|].
  destruct (err_of r2) as [e|].
  { destruct Hrun as (Hres & Hos & Hcalls). repeat split; try assumption.
    now rewrite Hos. }
  specialize (Hwrote2 eq_refl). split; [exact Hwrote2|].
  destruct Hrun as (r3 & s3 & E3 & Hres & Hos & Hcalls).
  destruct (WriteFile_content _ _ _ _ _ _ E3) as [Hframe3 _].
  exists r3. rewrite Hos. repeat split; try assumption.
  rewrite Hframe3 by exact backup_is_another_file. exact Hwrote2.
Qed.

End ManifestFiles.

(** ** The project namer *)
Section Namer.
Context `{OS}.

Lemma promptProjectName_pass_eof (w : World) :
  cut newline (stdin w) = None ->
  Scaffold.promptProjectName_pass w =
  (Return defaultProjectName,
   {| os := os w; stdin := EmptyString; version := version w;
      events := events w ++ [Stdout promptText; Stdin (stdin w) (Some EOF)] |}).
Proof.
  intros Hcut. unfold Scaffold.promptProjectName_pass. unfold_program.
  simpl_world. rewrite Hcut. simpl_world. now rewrite <- app_assoc.
Qed.

Lemma promptProjectName_pass_line (w : World) (line rest : string) :
  cut newline (stdin w) = Some (line, rest) ->
  Scaffold.promptProjectName_pass w =
  let '(r, s) := sys (Stat (target (candidate line))) (os w) in
  if IsNotExist (err_of r) then
    if gostrings.ContainsAny (candidate line) Scaffold.invalidChars then
      (Continue, afterCheck w line rest r s [Stdout invalidMessage])
    else (Return (candidate line), afterCheck w line rest r s [])
  else
    (Continue,
     afterCheck w line rest r s [Stdout (existsMessage (candidate line))]).
Proof.
  intros Hcut. unfold Scaffold.promptProjectName_pass, Scaffold.isProjectExists.
  unfold_program. simpl_world. rewrite Hcut. simpl_world.
  fold (candidate line). fold (target (candidate line)).
  destruct (sys (Stat (target (candidate line))) (os w)) as [r s].
  simpl_world. unfold afterCheck.
  destruct (IsNotExist (err_of r)); cbn [negb].
  - destruct (gostrings.ContainsAny (candidate line) Scaffold.invalidChars);
      simpl_world; rewrite <- ?app_assoc; reflexivity.
  - simpl_world. rewrite <- ?app_assoc. reflexivity.
Qed.

Lemma promptProjectName_Return (w : World) (name : string) (w' : World) :
  Scaffold.promptProjectName_pass w = (Return name, w') ->
  Scaffold.promptProjectName w = (name, w').
Proof.
  intros Hpass. rewrite Scaffold.promptProjectName_equation_1.
  destruct (inspect (Scaffold.promptProjectName_pass w)) as [[[name'|] w''] e].
  - rewrite Scaffold.promptProjectName_clause_1_equation_1. congruence.
  - congruence.
Qed.

Lemma promptProjectName_Continue (w w' : World) :
  Scaffold.promptProjectName_pass w = (Continue, w') ->
  Scaffold.promptProjectName w = Scaffold.promptProjectName w'.
Proof.
  intros Hpass. rewrite Scaffold.promptProjectName_equation_1.
  destruct (inspect (Scaffold.promptProjectName_pass w)) as [[[name'|] w''] e].
  - congruence.
  - rewrite Scaffold.promptProjectName_clause_1_equation_2. congruence.
Qed.

Lemma In_asciiSet (chars : bytes) (c : ascii) :
  gostrings.asciiSet_contains chars c = true <-> In c chars.
Proof.
  unfold gostrings.asciiSet_contains. rewrite existsb_exists. split.
  - intros (d & Hd & Heq). apply Ascii.eqb_eq in Heq. now subst d.
  - intros Hin. exists c. split; [exact Hin|apply Ascii.eqb_refl].
Qed.

(** [ContainsAny] with the nine characters: some byte of the name is one
    of them. *)
Lemma ContainsAny_invalidChars (name : string) :
  gostrings.ContainsAny name Scaffold.invalidChars = true <->
  exists c, In c (list_ascii_of_string Scaffold.invalidChars) /\
            In c (list_ascii_of_string name).
Proof.
  unfold gostrings.ContainsAny.
  rewrite IndexAny_ascii_set; [| |reflexivity|reflexivity].
  2:{ vm_compute. lia. }
  rewrite existsb_exists. split.
  - intros (c & Hc & Hin). exists c. split; [now apply In_asciiSet|exact Hc].
  - intros (c & Hin & Hc). exists c. split; [exact Hc|now apply In_asciiSet].
Qed.

Lemma invalid_not_trimmable (c : ascii) :
  In c (list_ascii_of_string Scaffold.invalidChars) -> ~ trimmable c.
Proof.
  intros Hin. cbn in Hin.
  repeat (destruct Hin as [<-|Hin];
          [intros [Hsp|Hhi]; [vm_compute in Hsp; discriminate
                             |vm_compute in Hhi; now apply Hhi]|]).
  destruct Hin.
Qed.

(** Trimming a line keeps the invalid characters it has. *)
Lemma TrimSpace_keeps_invalid (line : string) (c : ascii) :
  In c (list_ascii_of_string Scaffold.invalidChars) ->
  In c (list_ascii_of_string line) ->
  In c (list_ascii_of_string (gostrings.TrimSpace line)).
Proof.
  intros Hc Hin. unfold gostrings.TrimSpace.
  rewrite list_ascii_of_string_of_list_ascii.
  apply TrimSpace_bytes_keeps; [exact Hin|now apply invalid_not_trimmable].
Qed.

Lemma candidate_not_empty (line : string) : candidate line <> EmptyString.
Proof.
  unfold candidate.
  destruct (String.eqb_spec (gostrings.TrimSpace line) EmptyString); [discriminate|assumption].
Qed.

Lemma candidate_blank (line : string) :
  blank line -> candidate line = defaultProjectName.
Proof. intros Hb. unfold candidate. now rewrite TrimSpace_blank. Qed.

Lemma candidate_with_invalid (line : string) (c : ascii) :
  In c (list_ascii_of_string Scaffold.invalidChars) ->
  In c (list_ascii_of_string line) ->
  candidate line = gostrings.TrimSpace line /\
  gostrings.ContainsAny (candidate line) Scaffold.invalidChars = true.
Proof.
  intros Hc Hin. pose proof (TrimSpace_keeps_invalid line c Hc Hin) as Hkept.
  assert (Hcand : candidate line = gostrings.TrimSpace line).
  { unfold candidate.
    destruct (String.eqb_spec (gostrings.TrimSpace line) EmptyString) as [Heq|]; [|reflexivity].
    rewrite Heq in Hkept. destruct Hkept. }
  split; [exact Hcand|]. rewrite Hcand.
  apply ContainsAny_invalidChars. now exists c.
Qed.

Lemma promptProjectName_Validated (w : World) :
  Validated (Scaffold.promptProjectName w).
Proof.
  apply (Scaffold.promptProjectName_elim (fun _ res => Validated res)).
  - clear w. intros w name w' Hpass _.
    destruct (cut newline (stdin w)) as [[line rest]|] eqn:Hcut.
    + rewrite (promptProjectName_pass_line w line rest Hcut) in Hpass.
      destruct (sys (Stat (target (candidate line))) (os w)) as [r s].
      destruct (IsNotExist (err_of r)) eqn:Hne; [|discriminate].
      destruct (gostrings.ContainsAny (candidate line) Scaffold.invalidChars)
        eqn:Hany; [discriminate|].
      injection Hpass as <- <-. unfold Validated. cbn [fst snd].
      split; [apply candidate_not_empty|]. split; [exact Hany|].
      left. unfold afterCheck. cbn [events].
      exists (events w ++ [Stdout promptText; Stdin line None]), r.
      split; [|exact Hne]. rewrite app_nil_r, <- app_assoc. reflexivity.
    + rewrite (promptProjectName_pass_eof w Hcut) in Hpass.
      injection Hpass as <- <-. unfold Validated. cbn [fst snd].
      split; [discriminate|]. split; [vm_compute; reflexivity|].
      right. split; [reflexivity|]. cbn [events].
      exists (events w ++ [Stdout promptText]), (stdin w).
      now rewrite <- app_assoc.
  - intros w0 w' _ IH _. exact IH.
Qed.

Lemma Launcher_promptProjectName_line (w : World) (line rest : string) :
  cut newline (stdin w) = Some (line, rest) ->
  Launcher.promptProjectName w =
  (candidate line,
   {| os := os w; stdin := rest; version := version w;
      events := events w ++ [Stdout promptText; Stdin line None] |}).
Proof.
  intros Hcut. unfold Launcher.promptProjectName. unfold_program.
  simpl_world. rewrite Hcut. simpl_world. unfold candidate.
  rewrite <- app_assoc.
  now destruct (String.eqb (gostrings.TrimSpace line) EmptyString).
Qed.

Lemma Launcher_promptProjectName_eof (w : World) :
  cut newline (stdin w) = None ->
  Launcher.promptProjectName w =
  (defaultProjectName,
   {| os := os w; stdin := EmptyString; version := version w;
      events := events w ++ [Stdout promptText; Stdin (stdin w) (Some EOF)] |}).
Proof.
  intros Hcut. unfold Launcher.promptProjectName. unfold_program.
  simpl_world. rewrite Hcut. simpl_world. now rewrite <- app_assoc.
Qed.

Lemma cut_app_no_delim (a : bytes) (b : string) :
  Forall (fun c => c <> newline) a ->
  cut newline (string_of_list_ascii a +:+ b) =
  match cut newline b with
  | Some (l, r) => Some (string_of_list_ascii a +:+ l, r)
  | None => None
  end.
Proof.
  induction 1 as [|c a Hc _ IH].
  - change (string_of_list_ascii [] +:+ b) with b.
    destruct (cut newline b) as [[l r]|]; reflexivity.
  - change (string_of_list_ascii (c :: a) +:+ b)
      with (String c (string_of_list_ascii a +:+ b)).
    cbn [cut]. destruct (Ascii.eqb_spec c newline); [contradiction|].
    rewrite IH. now destruct (cut newline b) as [[l r]|].
Qed.

Lemma SpaceRune_newline (r : Z) :
  SpaceRune r ->
  utf8.AppendRune r = [newline] \/
  Forall (fun c => c <> newline) (utf8.AppendRune r).
Proof.
  intros Hr. apply SpaceRune_cases in Hr. unfold spaceRunes in Hr.
  cbn [In] in Hr.
  repeat (destruct Hr as [<-|Hr];
          [first [left; vm_compute; reflexivity
                 |right; vm_compute; repeat constructor; discriminate]|]).
  destruct Hr.
Qed.

(** A blank text cut at its first newline gives two blank texts. *)
Lemma blank_bytes_cut (bs : bytes) :
  blank_bytes bs ->
  forall line rest,
    cut newline (string_of_list_ascii bs) = Some (line, rest) ->
    blank line /\ blank rest.
Proof.
  induction 1 as [|r bs Hr Hbs IH]; intros line rest Hcut; [discriminate|].
  rewrite string_of_list_ascii_app in Hcut.
  destruct (SpaceRune_newline r Hr) as [Henc|Hno].
  - rewrite Henc in Hcut.
    change (string_of_list_ascii [newline] +:+ string_of_list_ascii bs)
      with (String newline (string_of_list_ascii bs)) in Hcut.
    cbn [cut] in Hcut. rewrite Ascii.eqb_refl in Hcut.
    injection Hcut as <- <-. split.
    + unfold blank. cbn [list_ascii_of_string].
      rewrite <- (app_nil_r [newline]), <- Henc. constructor; [exact Hr|constructor].
    + unfold blank. now rewrite list_ascii_of_string_of_list_ascii.
  - rewrite (cut_app_no_delim _ _ Hno) in Hcut.
    destruct (cut newline (string_of_list_ascii bs)) as [[l r']|] eqn:Hc;
      [|discriminate].
    injection Hcut as <- <-. destruct (IH l r' eq_refl) as [Hl Hr'].
    split; [|exact Hr'].
    unfold blank. rewrite list_ascii_of_string_app,
      list_ascii_of_string_of_list_ascii.
    now constructor.
Qed.

Lemma blank_cut (s line rest : string) :
  blank s -> cut newline s = Some (line, rest) -> blank line /\ blank rest.
Proof.
  intros Hs Hcut. apply (blank_bytes_cut _ Hs).
  now rewrite string_of_list_ascii_of_string.
Qed.

(** On an input that is blank as a whole the prompt of main.go returns
    the default. *)
Lemma promptProjectName_blank (w : World) :
  blank (stdin w) -> (Scaffold.promptProjectName w).1 = defaultProjectName.
Proof.
  apply (Scaffold.promptProjectName_elim
           (fun w res => blank (stdin w) -> res.1 = defaultProjectName)).
  - clear w. intros w name w' Hpass _ Hblank. cbn [fst].
    destruct (cut newline (stdin w)) as [[line rest]|] eqn:Hcut.
    + destruct (blank_cut _ _ _ Hblank Hcut) as [Hline _].
      rewrite (promptProjectName_pass_line w line rest Hcut) in Hpass.
      destruct (sys (Stat (target (candidate line))) (os w)) as [r s].
      destruct (IsNotExist (err_of r)); [|discriminate].
      destruct (gostrings.ContainsAny (candidate line) Scaffold.invalidChars);
        [discriminate|].
      injection Hpass as <- _. now apply candidate_blank.
    + rewrite (promptProjectName_pass_eof w Hcut) in Hpass.
      now injection Hpass as <- _.
  - intros w0 w' Hpass IH _ Hblank. apply IH.
    destruct (cut newline (stdin w0)) as [[line rest]|] eqn:Hcut.
    + destruct (blank_cut _ _ _ Hblank Hcut) as [_ Hrest].
      rewrite (promptProjectName_pass_line w0 line rest Hcut) in Hpass.
      destruct (sys (Stat (target (candidate line))) (os w0)) as [r s].
      destruct (IsNotExist (err_of r)).
      * destruct (gostrings.ContainsAny (candidate line) Scaffold.invalidChars);
          [|discriminate].
        injection Hpass as <-. exact Hrest.
      * injection Hpass as <-. exact Hrest.
    + rewrite (promptProjectName_pass_eof w0 Hcut) in Hpass. discriminate.
Qed.

(** C4 (amended).  Every name the prompt of main.go returns is not empty and
    has none of the nine characters.  A name returned after a line was
    read is also free at the target path: the last thing the prompt did was
    the [os.Stat] of that path, and it reported "not found".  When reading
    standard input fails (end of input) the default name is returned as
    it is, without that check.  The prompt of the earlier revision
    guarantees only that the name is not empty. *)
Theorem prompt_returns_checked_name (w : World) :
  let result := Scaffold.promptProjectName w in
  let name := result.1 in
  name <> EmptyString /\
  (forall c, In c (list_ascii_of_string Scaffold.invalidChars) ->
             ~ In c (list_ascii_of_string name)) /\
  ((exists evs r,
      events result.2 = evs ++ [Called (Stat (target name)) r] /\
      IsNotExist (err_of r) = true) \/
   (name = defaultProjectName /\
    exists evs rest, events result.2 = evs ++ [Stdin rest (Some EOF)])) /\
  (Launcher.promptProjectName w).1 <> EmptyString.
Proof.
  intros result name.
  destruct (promptProjectName_Validated w) as (Hne & Hany & Hcheck).
  fold result in Hne, Hany, Hcheck. fold name in Hne, Hany, Hcheck.
  split; [exact Hne|]. split.
  { intros c Hc Hin.
    assert (Htrue : gostrings.ContainsAny name Scaffold.invalidChars = true)
      by (apply ContainsAny_invalidChars; now exists c).
    congruence. }
  split; [exact Hcheck|].
  destruct (cut newline (stdin w)) as [[line rest]|] eqn:Hcut.
  - rewrite (Launcher_promptProjectName_line w line rest Hcut).
    apply candidate_not_empty.
  - rewrite (Launcher_promptProjectName_eof w Hcut). discriminate.
Qed.

(** C5 (amended).  In main.go, a line entered at the prompt that has any of
    the nine characters is rejected: the candidate name is the line without
    the white space around it, the pass ends by printing a message (that the
    name has invalid characters, or, when [os.Stat] does not report "not
    found" for it, that it already exists) and the prompt asks again on the
    rest of the input; the name is not what the prompt returns.  (The
    earlier revision has no such check.) *)
Theorem prompt_rejects_invalid_characters (w : World) (line rest : string)
    (c : ascii) :
  cut newline (stdin w) = Some (line, rest) ->
  In c (list_ascii_of_string Scaffold.invalidChars) ->
  In c (list_ascii_of_string line) ->
  let name := gostrings.TrimSpace line in
  let '(r, s) := sys (Stat (target name)) (os w) in
  let message :=
    if IsNotExist (err_of r) then invalidMessage else existsMessage name in
  let w' :=
    {| os := s; stdin := rest; version := version w;
       events := events w ++
                 [Stdout promptText; Stdin line None;
                  Called (Stat (target name)) r; Stdout message] |} in
  Scaffold.promptProjectName_pass w = (Continue, w') /\
  Scaffold.promptProjectName w = Scaffold.promptProjectName w' /\
  (Scaffold.promptProjectName w).1 <> name.
Proof.
  intros Hcut Hc Hin name.
  destruct (candidate_with_invalid line c Hc Hin) as [Hcand Hany].
  fold name in Hcand.
  pose proof (promptProjectName_pass_line w line rest Hcut) as Hpass.
  rewrite Hany, Hcand in Hpass. unfold afterCheck in Hpass.
  rewrite Hcand in Hpass.
  destruct (sys (Stat (target name)) (os w)) as [r s]. cbv zeta.
  assert (Hpass' :
    Scaffold.promptProjectName_pass w =
    (Continue,
     {| os := s; stdin := rest; version := version w;
        events := events w ++
          [Stdout promptText; Stdin line None; Called (Stat (target name)) r;
           Stdout (if IsNotExist (err_of r) then invalidMessage
                   else existsMessage name)] |})).
  { rewrite Hpass. now destruct (IsNotExist (err_of r)). }
  split; [exact Hpass'|]. split; [now apply promptProjectName_Continue|].
  intros Heq.
  destruct (promptProjectName_Validated w) as (_ & Hvalid & _).
  rewrite Heq, <- Hcand in Hvalid. congruence.
Qed.

(** C6.  A line that is blank (white space only, the newline included)
    resolves to the default name in both revisions: the earlier revision
    returns the default; main.go takes the default as the candidate, which
    it returns when [os.Stat] reports "not found" for it and otherwise
    rejects by name before asking again.  When the input ends before a
    newline both revisions return the default, and on an input that is
    blank as a whole so does main.go, however many lines it has. *)
Theorem blank_input_resolves_to_default (w : World) :
  (forall line rest,
     cut newline (stdin w) = Some (line, rest) -> blank line ->
     (Launcher.promptProjectName w).1 = defaultProjectName /\
     let '(r, s) := sys (Stat (target defaultProjectName)) (os w) in
     let after printed :=
       {| os := s; stdin := rest; version := version w;
          events := events w ++
                    [Stdout promptText; Stdin line None;
                     Called (Stat (target defaultProjectName)) r] ++ printed |} in
     Scaffold.promptProjectName_pass w =
       if IsNotExist (err_of r) then (Return defaultProjectName, after [])
       else (Continue, after [Stdout (existsMessage defaultProjectName)])) /\
  (cut newline (stdin w) = None ->
   (Launcher.promptProjectName w).1 = defaultProjectName /\
   (Scaffold.promptProjectName w).1 = defaultProjectName) /\
  (blank (stdin w) ->
   (Launcher.promptProjectName w).1 = defaultProjectName /\
   (Scaffold.promptProjectName w).1 = defaultProjectName).
Proof.
  split; [|split].
  - intros line rest Hcut Hblank.
    pose proof (candidate_blank line Hblank) as Hcand. split.
    + rewrite (Launcher_promptProjectName_line w line rest Hcut). exact Hcand.
    + rewrite (promptProjectName_pass_line w line rest Hcut).
      unfold afterCheck. rewrite Hcand.
      destruct (sys (Stat (target defaultProjectName)) (os w)) as [r s].
      destruct (IsNotExist (err_of r)); [|reflexivity].
      replace (gostrings.ContainsAny defaultProjectName Scaffold.invalidChars)
        with false by (vm_compute; reflexivity).
      reflexivity.
  - intros Hcut. split.
    + now rewrite (Launcher_promptProjectName_eof w Hcut).
    + now rewrite (promptProjectName_Return _ _ _ (promptProjectName_pass_eof w Hcut)).
  - intros Hblank. split; [|now apply promptProjectName_blank].
    destruct (cut newline (stdin w)) as [[line rest]|] eqn:Hcut.
    + destruct (blank_cut _ _ _ Hblank Hcut) as [Hline _].
      rewrite (Launcher_promptProjectName_line w line rest Hcut).
      now apply candidate_blank.
    + now rewrite (Launcher_promptProjectName_eof w Hcut).
Qed.

End Namer.

(** ** Runs on the machine *)

(** The scenario of the specification: the name test-app, nothing at the
    target; the fifteen calls of the workflow are made in order. *)
Example createProject_test_app :
  let run :=
    @Scaffold.createProject (MachineOS "linux") {| isWindows := false |}
      "test-app" (boot "linux" (machineWith manifestWithPredev) EmptyString) in
  run.1 = None /\
  map fst (calls (events run.2)) =
    map step_call
      (@workflow (MachineOS "linux") {| isWindows := false |} "test-app"
         manifestWithPredev).
Proof. vm_compute. split; reflexivity. Qed.

(** A manifest with the predev line, patched on the machine. *)
Lemma manifest_patch_exchanges_predev_line_witness :
  let w := boot "linux" (machineWith manifestWithPredev) EmptyString in
  let w' := (Scaffold.createProject_manifest w).2 in
  exists pre post,
    manifestWithPredev = pre +:+ Scaffold.predevLine +:+ post /\
    @file _ (Machine_FileStore "linux") (os w') "package.json" =
      Some (pre +:+ Scaffold.predevPlaceholder +:+ post) /\
    @file _ (Machine_FileStore "linux") (os w') "package.json.backup" =
      Some manifestWithPredev.
Proof.
  intros w w'.
  destruct (@manifest_patch_exchanges_predev_line (MachineOS "linux")
              (Machine_FileStore "linux") w manifestWithPredev)
    as (pre & post & Heq & _ & Hpj & Hbk & _).
  - vm_compute. reflexivity.
  - vm_compute. reflexivity.
  - vm_compute. reflexivity.
  - exists pre, post. split; [exact Heq|]. split; [exact Hpj|exact Hbk].
Defined.

(** A manifest without the predev line, patched on the machine. *)
Lemma manifest_patch_without_predev_line_witness :
  let w := boot "linux" (machineWith manifestWithoutPredev) EmptyString in
  let w' := (Scaffold.createProject_manifest w).2 in
  @file _ (Machine_FileStore "linux") (os w') "package.json" =
    Some manifestWithoutPredev /\
  @file _ (Machine_FileStore "linux") (os w') "package.json.backup" =
    Some manifestWithoutPredev.
Proof.
  intros w w'.
  destruct (@manifest_patch_without_predev_line (MachineOS "linux")
              (Machine_FileStore "linux") w manifestWithoutPredev)
    as (_ & _ & Hpj & Hbk & _).
  - vm_compute. reflexivity.
  - vm_compute. reflexivity.
  - vm_compute. reflexivity.
  - split; [exact Hpj|exact Hbk].
Defined.

(** The backup on the machine, after the manifest block. *)
Lemma backup_written_before_overwrite_witness :
  let w := boot "linux" (machineWith manifestWithPredev) EmptyString in
  let run := Scaffold.createProject_manifest w in
  exists r1 s1,
    sys (ReadFile "package.json") (os w) = (r1, s1) /\
    err_of r1 = None /\
    @file _ (Machine_FileStore "linux") (os run.2) "package.json.backup" =
      Some (data_of r1).
Proof.
  intros w run.
  destruct (@backup_written_before_overwrite (MachineOS "linux")
              (Machine_FileStore "linux") w) as (r1 & s1 & E1 & Hrest).
  exists r1, s1. split; [exact E1|].
  pose proof E1 as Hread. vm_compute in Hread. injection Hread as <- <-.
  split; [reflexivity|].
  change (err_of (Bytes manifestWithPredev None)) with (@None error) in Hrest.
  cbv zeta iota in Hrest.
  destruct Hrest as (_ & r2 & s2 & E2 & _ & Hrest).
  assert (He2 : err_of r2 = None).
  { vm_compute in E2. injection E2 as <- _. reflexivity. }
  rewrite He2 in Hrest. destruct Hrest as (_ & r3 & _ & _ & Hbk & _).
  exact Hbk.
Defined.

(** A name with a slash, entered on the machine. *)
Lemma prompt_rejects_invalid_characters_witness :
  let w := boot "linux" emptyMachine ("a/b" +:+ nl +:+ "good" +:+ nl) in
  (Scaffold.promptProjectName w).1 <> gostrings.TrimSpace ("a/b" +:+ nl).
Proof.
  intros w.
  pose proof (@prompt_rejects_invalid_characters (MachineOS "linux") w
                ("a/b" +:+ nl) ("good" +:+ nl) "/"%char) as Hthm.
  cbv zeta in Hthm.
  destruct (sys (Stat (target (gostrings.TrimSpace ("a/b" +:+ nl)))) (os w))
    as [r s].
  apply Hthm.
  - vm_compute. reflexivity.
  - vm_compute. right. left. reflexivity.
  - vm_compute. right. left. reflexivity.
Defined.

Lemma blank_space_newline : blank (" " +:+ nl).
Proof.
  unfold blank.
  change (list_ascii_of_string (" " +:+ nl))
    with (utf8.AppendRune 32 ++ utf8.AppendRune 10 ++ []).
  repeat constructor; vm_compute; congruence.
Defined.

(** A blank line, an input that ends at once, and a blank input, on the
    machine. *)
Lemma blank_input_resolves_to_default_witness :
  let w := boot "linux" emptyMachine (" " +:+ nl) in
  let ended := boot "linux" emptyMachine EmptyString in
  (Launcher.promptProjectName w).1 = defaultProjectName /\
  (Scaffold.promptProjectName w).1 = defaultProjectName /\
  (Launcher.promptProjectName ended).1 = defaultProjectName /\
  (Scaffold.promptProjectName ended).1 = defaultProjectName.
Proof.
  intros w ended.
  destruct (@blank_input_resolves_to_default (MachineOS "linux") w)
    as (Hline & _ & Hblank).
  destruct (@blank_input_resolves_to_default (MachineOS "linux") ended)
    as (_ & Hend & _).
  destruct (Hline (" " +:+ nl) EmptyString) as [Hearlier _].
  { vm_compute. reflexivity. }
  { exact blank_space_newline. }
  destruct (Hblank blank_space_newline) as [_ Hmain].
  destruct Hend as [Hend1 Hend2]; [vm_compute; reflexivity|].
  repeat split; assumption.
Defined.

(** C4, as stated, fails.  With the default project already there and
    standard input at its end, the prompt of main.go returns the default
    name, although the existence check reports a collision for it; and the
    prompt of the earlier revision returns a name with a slash. *)
Lemma prompt_returns_unchecked_default :
  let w := boot "windows" machineWithDefaultProject EmptyString in
  let result := Scaffold.promptProjectName w in
  result.1 = defaultProjectName /\
  (Scaffold.isProjectExists result.1 result.2).1 = true /\
  events result.2 = [Stdout promptText; Stdin EmptyString (Some EOF)] /\
  (Launcher.promptProjectName
     (boot "windows" emptyMachine ("a/b" +:+ nl))).1 = "a/b"%string.
Proof. vm_compute. repeat split; reflexivity. Qed.

(** C5, as stated, fails.  The prompt of the earlier revision returns a
    name with a slash, printing nothing but the prompt; and in main.go a
    name with a slash that ends the input without a newline is dropped for
    the default without a message or a second prompt. *)
Lemma earlier_prompt_returns_invalid_name :
  let w := boot "linux" emptyMachine ("a/b" +:+ nl) in
  let ended := boot "linux" emptyMachine "a/b" in
  In "/"%char (list_ascii_of_string Scaffold.invalidChars) /\
  (Launcher.promptProjectName w).1 = "a/b"%string /\
  events (Launcher.promptProjectName w).2 =
    [Stdout promptText; Stdin ("a/b" +:+ nl) None] /\
  (Scaffold.promptProjectName ended).1 = defaultProjectName /\
  events (Scaffold.promptProjectName ended).2 =
    [Stdout promptText; Stdin "a/b" (Some EOF)].
Proof.
  vm_compute. split; [right; left; reflexivity|]. repeat split; reflexivity.
Qed.

(** C8, as stated, fails.  With [--skip-setup] on a machine without git
    the process ends at the prerequisite check: [npm run dev] is never
    called. *)
Lemma skip_setup_without_git_stops_at_probe :
  let run := Launcher.main true (boot "linux" machineWithoutGit EmptyString) in
  run.1 = 1 /\
  events run.2 =
    [Called (Exec "git" ["--version"])
       (Status (Some (executableNotFound "git")));
     Fatal "Prerequisite check failed: git is not installed or not in PATH"] /\
  ~ In (Exec "npm" ["run"; "dev"]) (map fst (calls (events run.2))).
Proof.
  vm_compute. repeat split; try reflexivity.
  intros [Heq|[]]. discriminate Heq.
Qed.
